(** * Proactive private chat plugin: cooldown tracker, identity resolver,
      dispatcher and entry points of [plugin.py], embedded in Rocq.

    Conventions of the embedding.
    - Python [str] is [string], the UTF-8 bytes of the text; f-strings are
      concatenations with [+:+].  What [str.isdigit()] and [int()] do on
      ASCII text is computed; what they do on text with other characters
      rests on the Unicode tables of the Python runtime, which are oracles
      of [Host] like the collaborators.
    - [time.time()] readings are exact rationals ([Q]); the rounding of
      float subtraction is outside the model.
    - The host collaborators ([person_api], [chat_api], [send_api]), the
      clock and the random generator are a record [Host] of oracles; an
      oracle either returns a value or raises.  One [Host] is the snapshot
      of the host seen by one run.
    - Code runs in the monad [M]: a state [World] (the class attribute
      [PrivateChatCooldown._cooldowns], the number of clock readings, the
      trace of collaborator calls) plus exceptions ([Raise]), with
      [try_except] for [try: ... except Exception].  Only exceptions derived
      from [Exception] are modelled.  Logger calls have no effect on any
      result and are left out. *)

From Stdlib Require Import ZArith QArith Qround String Ascii List Lia.
From stdpp Require Import gmap strings list pretty.

Close Scope Q_scope.
Open Scope string_scope.

(* ================================================================== *)
(** ** Exceptions, state and the monad *)

(** An exception, carried as [str(e)]. *)
Inductive exn := Exception (msg : string).

Definition str_exn (e : exn) : string := let 'Exception m := e in m.

Inductive result (A : Type) :=
| Ok (a : A)
| Raise (e : exn).
Arguments Ok {A} a.
Arguments Raise {A} e.

(** [chat_stream.stream_id] is the only attribute the plugin reads. *)
Record ChatStream := { stream_id : string }.

(** Calls made to the host, in order. *)
Inductive Call :=
| CallGetPersonIdByName (username : string)
| CallGetPersonValue (person_id : option string) (field : string)
| CallGetPersonId (platform : string) (uid : Z)
| CallGetStreamByUserId (user_id platform : string)
| CallTextToStream (text sid : string) (typing storage_message : bool)
| CallGetPrivateStreams (platform : string)
| CallGetStreamInfo (stream : ChatStream).

Record World := {
  cooldowns : gmap string Q;   (* PrivateChatCooldown._cooldowns *)
  ticks : nat;                 (* clock readings made so far *)
  calls : list Call            (* collaborator calls made so far *)
}.

Record Host := {
  clock : nat -> Q;            (* the n-th reading of time.time() *)
  random_draw : Q;             (* what random.random() returns, in [0,1) *)
  random_pick : nat;           (* entropy used by random.choice *)
  h_unicode_isdigit : string -> bool;   (* str.isdigit() beyond ASCII *)
  h_unicode_int : string -> option Z;   (* int() beyond ASCII or 640 characters *)
  h_get_person_id_by_name : string -> result (option string);
  h_get_person_value :
    option string -> string -> option string -> result (option string);
  h_get_person_id : string -> Z -> result (option string);
  h_get_stream_by_user_id : string -> string -> result (option ChatStream);
  h_text_to_stream : string -> string -> result bool;
  h_get_private_streams : string -> result (list ChatStream);
  h_get_stream_info : ChatStream -> result (gmap string string)
}.

Definition M (A : Type) : Type := World -> result A * World.

Definition ret {A} (a : A) : M A := fun w => (Ok a, w).

Definition raise {A} (e : exn) : M A := fun w => (Raise e, w).

Definition bind {A B} (m : M A) (k : A -> M B) : M B :=
  fun w =>
    match m w with
    | (Ok a, w') => k a w'
    | (Raise e, w') => (Raise e, w')
    end.

(** [try: body except Exception as e: handler e]. *)
Definition try_except {A} (body : M A) (handler : exn -> M A) : M A :=
  fun w =>
    match body w with
    | (Ok a, w') => (Ok a, w')
    | (Raise e, w') => handler e w'
    end.

Notation "x <- m ;; k" := (bind m (fun x => k))
  (at level 100, m at next level, right associativity).
Notation "m ;;; k" := (bind m (fun _ => k))
  (at level 100, right associativity).

Definition get_cooldowns : M (gmap string Q) := fun w => (Ok (cooldowns w), w).

Definition set_cooldown (user_id : string) (t : Q) : M unit :=
  fun w => (Ok tt, {| cooldowns := <[user_id := t]> (cooldowns w);
                      ticks := ticks w; calls := calls w |}).

(** The world after one more clock reading. *)
Definition tick (w : World) : World :=
  {| cooldowns := cooldowns w; ticks := S (ticks w); calls := calls w |}.

(** [time.time()]. *)
Definition time_time (h : Host) : M Q :=
  fun w => (Ok (clock h (ticks w)), tick w).

(** The world after one more collaborator call. *)
Definition logged (c : Call) (w : World) : World :=
  {| cooldowns := cooldowns w; ticks := ticks w; calls := calls w ++ [c] |}.

(** A call to a collaborator: logged in the trace, then answered by the host. *)
Definition call_host {A} (c : Call) (answer : result A) : M A :=
  fun w => (answer, logged c w).

Definition person_api_get_person_id_by_name (h : Host) (username : string)
  : M (option string) :=
  call_host (CallGetPersonIdByName username) (h_get_person_id_by_name h username).

Definition person_api_get_person_value (h : Host) (person_id : option string)
    (field : string) (dflt : option string) : M (option string) :=
  call_host (CallGetPersonValue person_id field)
            (h_get_person_value h person_id field dflt).

Definition person_api_get_person_id (h : Host) (platform : string) (uid : Z)
  : M (option string) :=
  call_host (CallGetPersonId platform uid) (h_get_person_id h platform uid).

Definition chat_api_get_stream_by_user_id (h : Host) (user_id platform : string)
  : M (option ChatStream) :=
  call_host (CallGetStreamByUserId user_id platform)
            (h_get_stream_by_user_id h user_id platform).

Definition send_api_text_to_stream (h : Host) (text sid : string)
    (typing storage_message : bool) : M bool :=
  call_host (CallTextToStream text sid typing storage_message)
            (h_text_to_stream h text sid).

Definition chat_api_get_private_streams (h : Host) (platform : string)
  : M (list ChatStream) :=
  call_host (CallGetPrivateStreams platform) (h_get_private_streams h platform).

Definition chat_api_get_stream_info (h : Host) (stream : ChatStream)
  : M (gmap string string) :=
  call_host (CallGetStreamInfo stream) (h_get_stream_info h stream).

(* ================================================================== *)
(** ** Python built-ins used by the plugin *)

(** Truth value of an optional string: [None] and the empty string are false. *)
Definition truthy (o : option string) : bool :=
  match o with
  | Some s => negb (String.eqb s "")
  | None => false
  end.

Definition is_ascii_digit (c : ascii) : bool :=
  let n := nat_of_ascii c in (48 <=? n)%nat && (n <=? 57)%nat.

Fixpoint all_digits (s : string) : bool :=
  match s with
  | EmptyString => true
  | String c s' => is_ascii_digit c && all_digits s'
  end.

(** [str.isdigit()] on ASCII text: non-empty and every character a digit. *)
Definition ascii_isdigit (s : string) : bool :=
  match s with
  | EmptyString => false
  | _ => all_digits s
  end.

(** Every byte is below 128: the text has ASCII characters only. *)
Fixpoint is_ascii_str (s : string) : bool :=
  match s with
  | EmptyString => true
  | String c s' => (nat_of_ascii c <? 128)%nat && is_ascii_str s'
  end.

(** [s.isdigit()].  On ASCII text it is computed; on text with other
    characters the answer is that of the runtime's Unicode tables (true for
    full-width or superscript digits, say). *)
Definition str_isdigit (h : Host) (s : string) : bool :=
  if is_ascii_str s then ascii_isdigit s else h_unicode_isdigit h s.

(** [int(x)] for a float [x]: truncation toward zero. *)
Definition int_of_float (x : Q) : Z := Z.quot (Qnum x) (QDen x).

(** [s.startswith(p)]. *)
Fixpoint starts_with (p s : string) : bool :=
  match p, s with
  | EmptyString, _ => true
  | String a p', String b s' => Ascii.eqb a b && starts_with p' s'
  | String _ _, EmptyString => false
  end.

(** [old in s]. *)
Fixpoint contains (old s : string) : bool :=
  starts_with old s ||
  match s with
  | EmptyString => false
  | String _ s' => contains old s'
  end.

(** The scan of [str.replace] for a non-empty [old]: left to right; at a
    match emit [new] and skip the matched characters ([skip] counts those
    still to drop), otherwise copy one character. *)
Fixpoint replace_scan (old new : string) (skip : nat) (s : string) : string :=
  match s with
  | EmptyString => EmptyString
  | String c s' =>
      match skip with
      | S k => replace_scan old new k s'
      | O =>
          if starts_with old s
          then new +:+ replace_scan old new (String.length old - 1) s'
          else String c (replace_scan old new 0 s')
      end
  end.

(** [new.join(list(s))] with [new] also before and after: what
    [s.replace("", new)] gives. *)
Fixpoint interleave (new s : string) : string :=
  match s with
  | EmptyString => new
  | String c s' => new +:+ String c (interleave new s')
  end.

(** [s.replace(old, new)]. *)
Definition str_replace (s old new : string) : string :=
  match old with
  | EmptyString => interleave new s
  | _ => replace_scan old new 0 s
  end.

(** [sep.join(parts)]. *)
Fixpoint str_join (sep : string) (parts : list string) : string :=
  match parts with
  | [] => ""
  | [p] => p
  | p :: rest => p +:+ sep +:+ str_join sep rest
  end.

(** Whitespace stripped by [int] on ASCII input. *)
Definition is_space (c : ascii) : bool :=
  let n := nat_of_ascii c in
  ((9 <=? n)%nat && (n <=? 13)%nat) || ((28 <=? n)%nat && (n <=? 32)%nat).

Fixpoint lstrip (s : string) : string :=
  match s with
  | EmptyString => EmptyString
  | String c s' => if is_space c then lstrip s' else s
  end.

Fixpoint rstrip (s : string) : string :=
  match s with
  | EmptyString => EmptyString
  | String c s' =>
      let r := rstrip s' in
      if is_space c && String.eqb r "" then EmptyString else String c r
  end.

(** Decimal digits with single underscores between digits. *)
Fixpoint int_digits (acc : Z) (after_digit : bool) (s : string) : option Z :=
  match s with
  | EmptyString => if after_digit then Some acc else None
  | String c s' =>
      if is_ascii_digit c
      then int_digits (10 * acc + (Z.of_nat (nat_of_ascii c) - 48)) true s'
      else if Ascii.eqb c "_" && after_digit then int_digits acc false s'
      else None
  end.

(** [int(s)] on ASCII text, without a limit on the number of digits;
    [None] stands for [ValueError]. *)
Definition int_of_ascii (s : string) : option Z :=
  match lstrip (rstrip s) with
  | String "+" r => int_digits 0 false r
  | String "-" r => Z.opp <$> int_digits 0 false r
  | t => int_digits 0 false t
  end.

(** [int(s)] for a string [s]; [None] stands for [ValueError].  ASCII text
    of at most 640 characters is parsed here: no setting of the runtime's
    limit on digits (4300 by default, never below 640) refuses it.  Longer
    text, and text with other characters (Unicode decimal digits and
    blanks are accepted), is answered by the runtime. *)
Definition int_of_str (h : Host) (s : string) : option Z :=
  if is_ascii_str s && (String.length s <=? 640)%nat
  then int_of_ascii s
  else h_unicode_int h s.

Definition py_int (h : Host) (s : string) : M Z :=
  match int_of_str h s with
  | Some n => ret n
  | None => raise (Exception ("invalid literal for int() with base 10: '" +:+ s +:+ "'"))
  end.

(** [template.replace("{nickname}", nickname)]; a [None] nickname is a
    [TypeError]. *)
Definition replace_nickname (template : string) (nickname : option string)
  : M string :=
  match nickname with
  | Some n => ret (str_replace template "{nickname}" n)
  | None => raise (Exception "replace() argument 2 must be str, not None")
  end.

(** [f"{x}"] for an optional string. *)
Definition fmt_opt (o : option string) : string := default "None" o.

(* ================================================================== *)
(** ** Configuration ([config_schema]) *)

Definition DEFAULT_PLATFORM : string := "qq".

(** The options the code reads, typed as [config_schema] declares them; a
    field is [None] when the configuration file does not set it. *)
Record Config := {
  general_enabled : option bool;
  general_cooldown_seconds : option Z;
  smart_chat_only_known_users : option bool;
  messages_default_greeting : option string;
  messages_random_greetings : option (list string)
}.

(** [config_getter(key, dflt)], with [field] the projection for [key]. *)
Definition get_config {A} (field : Config -> option A) (dflt : A) (cfg : Config) : A :=
  default dflt (field cfg).

(* ================================================================== *)
(** ** class PrivateChatCooldown *)

Module PrivateChatCooldown.

Definition can_send (h : Host) (user_id : string) (cooldown_seconds : Z) : M bool :=
  cd <- get_cooldowns ;;
  let last_time := default 0%Q (cd !! user_id) in
  now <- time_time h ;;
  ret (Qle_bool (inject_Z cooldown_seconds) (now - last_time)%Q).

Definition record_send (h : Host) (user_id : string) : M unit :=
  now <- time_time h ;;
  set_cooldown user_id now.

Definition get_remaining_time (h : Host) (user_id : string) (cooldown_seconds : Z)
  : M Z :=
  cd <- get_cooldowns ;;
  let last_time := default 0%Q (cd !! user_id) in
  now <- time_time h ;;
  let remaining := (inject_Z cooldown_seconds - (now - last_time))%Q in
  ret (Z.max 0 (int_of_float remaining)).

End PrivateChatCooldown.

(* ================================================================== *)
(** ** Identity resolver *)

Definition get_user_id_by_name (h : Host) (platform username : string)
  : M (option string) :=
  try_except
    (person_id <- person_api_get_person_id_by_name h username ;;
     if negb (truthy person_id) then ret None
     else
       user_id <- person_api_get_person_value h person_id "user_id" None ;;
       match user_id with
       | Some u => ret (Some u)
       | None => ret None
       end)
    (fun _ => ret None).

Definition is_user_known (h : Host) (platform user_id : string) : M bool :=
  by_profile <-
    try_except
      (n <- py_int h user_id ;;
       person_id <- person_api_get_person_id h platform n ;;
       ret (truthy person_id))
      (fun _ => ret false) ;;
  if by_profile then ret true
  else
    by_stream <-
      try_except
        (chat_stream <- chat_api_get_stream_by_user_id h user_id platform ;;
         ret (bool_decide (is_Some chat_stream)))
        (fun _ => ret false) ;;
    if by_stream then ret true else ret false.

(* ================================================================== *)
(** ** Greeting selection and dispatch *)

(** [random.choice(seq)]: the entry at the drawn position; an empty [seq] is
    an [IndexError]. *)
Definition random_choice (h : Host) (seq : list string) : M string :=
  match seq !! (random_pick h mod length seq)%nat with
  | Some x => ret x
  | None => raise (Exception "Cannot choose from an empty sequence")
  end.

(** Truth value of a list: false when empty. *)
Definition nonempty {A} (l : list A) : bool :=
  match l with
  | [] => false
  | _ :: _ => true
  end.

Definition get_greeting_message (h : Host) (cfg : Config) (nickname : option string)
  : M string :=
  let random_greetings := get_config messages_random_greetings [] cfg in
  message <-
    (if nonempty random_greetings && negb (Qle_bool (random_draw h) (3 # 10))
     then random_choice h random_greetings
     else ret (get_config messages_default_greeting
                 "嗨 {nickname}，最近怎么样呀？" cfg)) ;;
  replace_nickname message nickname.

Definition send_private_message (h : Host) (user_id message platform : string)
    (config_getter : option Config) : M (bool * string) :=
  try_except
    (blocked <-
       match config_getter with
       | Some cfg =>
           let cooldown_seconds := get_config general_cooldown_seconds 300%Z cfg in
           ok <- PrivateChatCooldown.can_send h user_id cooldown_seconds ;;
           if negb ok then
             remaining <- PrivateChatCooldown.get_remaining_time h user_id cooldown_seconds ;;
             ret (Some ("冷却中，还需等待 " +:+ pretty remaining +:+ " 秒"))
           else ret None
       | None => ret None
       end ;;
     match blocked with
     | Some detail => ret (false, detail)
     | None =>
         chat_stream <- chat_api_get_stream_by_user_id h user_id platform ;;
         match chat_stream with
         | None => ret (false, "未找到用户 " +:+ user_id +:+ " 的私聊流")
         | Some cs =>
             success <- send_api_text_to_stream h message (stream_id cs) true true ;;
             if success then
               PrivateChatCooldown.record_send h user_id ;;;
               ret (true, "私聊消息发送成功")
             else ret (false, "消息发送失败")
         end
     end)
    (fun e => ret (false, "发送出错: " +:+ str_exn e)).

(* ================================================================== *)
(** ** class ProactivePrivateChatAction *)

Module ProactivePrivateChatAction.

(** What [execute] reads from [self]. *)
Record Self := {
  action_data : gmap string string;
  platform : string;
  user_id : option string;
  config : Config
}.

(** Lines 253-289 of [execute]: known-user gate, nickname, message body,
    dispatch. *)
Definition execute_send (h : Host) (self : Self)
    (target_user_id message_content reason : string) : M (bool * string) :=
  let only_known := get_config smart_chat_only_known_users true (config self) in
  is_known <-
    (if only_known then is_user_known h (platform self) target_user_id
     else ret true) ;;
  if negb is_known then ret (false, "该用户不是已知用户，跳过私聊")
  else
    nickname <-
      try_except
        (n <- py_int h target_user_id ;;
         person_id <- person_api_get_person_id h (platform self) n ;;
         person_api_get_person_value h person_id "nickname" (Some "朋友"))
        (fun _ => ret (Some "朋友")) ;;
    message_content <-
      (if String.eqb message_content ""
       then get_greeting_message h (config self) nickname
       else replace_nickname message_content nickname) ;;
    r <- send_private_message h target_user_id message_content
           (platform self) (Some (config self)) ;;
    let '(success, result_msg) := r in
    if success
    then ret (true, "成功向 " +:+ fmt_opt nickname +:+ " 发送了私聊消息")
    else ret (false, result_msg).

(** Lines 245-251 of [execute]: an empty target falls back to the user of
    the current conversation. *)
Definition execute_target (h : Host) (self : Self)
    (target_user_id message_content reason : string) : M (bool * string) :=
  if String.eqb target_user_id "" then
    if truthy (user_id self)
    then execute_send h self (default "" (user_id self)) message_content reason
    else ret (false, "未指定目标用户")
  else execute_send h self target_user_id message_content reason.

Definition execute (h : Host) (self : Self) : M (bool * string) :=
  if negb (get_config general_enabled true (config self))
  then ret (false, "主动私聊功能已禁用")
  else
    let target_user_id := default "" (action_data self !! "target_user_id") in
    let message_content := default "" (action_data self !! "message_content") in
    let reason := default "想和你聊聊天" (action_data self !! "reason") in
    if negb (String.eqb target_user_id "") && negb (str_isdigit h target_user_id) then
      converted_user_id <- get_user_id_by_name h (platform self) target_user_id ;;
      if truthy converted_user_id
      then execute_target h self (default "" converted_user_id)
             message_content reason
      else ret (false, "未找到用户 " +:+ target_user_id
                       +:+ " 的ID，请检查用户名是否正确")
    else execute_target h self target_user_id message_content reason.

End ProactivePrivateChatAction.

(* ================================================================== *)
(** ** class PrivateChatCommand *)

Module PrivateChatCommand.

(** What [execute] reads from [self]; a group that did not take part in
    the match is absent from [matched_groups]. *)
Record Self := {
  matched_groups : gmap string string;
  config : Config
}.

Definition execute (h : Host) (self : Self) : M (bool * string * bool) :=
  let target_user_id := default "" (matched_groups self !! "target_id") in
  let custom_message := matched_groups self !! "message" in
  if String.eqb target_user_id ""
  then ret (false, "命令格式错误，请使用: /私聊 <用户ID> [消息内容]", true)
  else
    nickname <-
      try_except
        (n <- py_int h target_user_id ;;
         person_id <- person_api_get_person_id h DEFAULT_PLATFORM n ;;
         person_api_get_person_value h person_id "nickname" (Some "用户"))
        (fun _ => ret (Some "用户")) ;;
    message <-
      (if truthy custom_message
       then replace_nickname (default "" custom_message) nickname
       else get_greeting_message h (config self) nickname) ;;
    r <- send_private_message h target_user_id message DEFAULT_PLATFORM
           (Some (config self)) ;;
    let '(success, result_msg) := r in
    if success
    then ret (true, "已向 " +:+ fmt_opt nickname +:+ "(" +:+ target_user_id
                    +:+ ") 发送私聊消息", true)
    else ret (false, "发送失败: " +:+ result_msg, true).

End PrivateChatCommand.

(* ================================================================== *)
(** ** class ListPrivateStreamsCommand *)

Module ListPrivateStreamsCommand.

Definition newline : string := String "010"%char EmptyString.

(** The line appended for the stream at index [i]. *)
Definition stream_line (i : nat) (stream_info : gmap string string) : string :=
  let user_id := default "未知" (stream_info !! "user_id") in
  let user_name := default "未知用户" (stream_info !! "user_name") in
  pretty i +:+ ". " +:+ user_name +:+ " (ID: " +:+ user_id +:+ ")".

(** The [for] loop, for the streams from index [i] on. *)
Fixpoint render_streams (h : Host) (i : nat) (streams : list ChatStream)
  : M (list string) :=
  match streams with
  | [] => ret []
  | stream :: rest =>
      stream_info <- chat_api_get_stream_info h stream ;;
      lines <- render_streams h (S i) rest ;;
      ret (stream_line i stream_info :: lines)
  end.

Definition execute (h : Host) : M (bool * string * bool) :=
  try_except
    (private_streams <- chat_api_get_private_streams h DEFAULT_PLATFORM ;;
     match private_streams with
     | [] => ret (true, "当前没有可用的私聊流", true)
     | _ =>
         rendered <- render_streams h 1 (take 20 private_streams) ;;
         let more :=
           if (20 <? length private_streams)%nat
           then ["... 还有 " +:+ pretty (length private_streams - 20)%nat
                 +:+ " 个私聊流"]
           else [] in
         ret (true,
              str_join newline (["📋 可用的私聊流列表：" ; ""] ++ rendered ++ more),
              true)
     end)
    (fun e => ret (false, "获取失败: " +:+ str_exn e, true)).

End ListPrivateStreamsCommand.


(* ================================================================== *)
(** ** The Cooldown Tracker contract, in the specification's words

    These two definitions follow section 4.1 of the specification, not the
    code; they are what the code is compared with. *)

(** [canSend]: true iff no record exists for the user, or the time elapsed
    since the recorded timestamp is at least the window. *)
Definition spec_canSend (cd : gmap string Q) (now : Q) (user : string) (C : Z) : bool :=
  match cd !! user with
  | None => true
  | Some t => Qle_bool (inject_Z C) (now - t)%Q
  end.

(** [remainingSeconds]: [max(0, ceil(window - elapsed))], and 0 if never sent. *)
Definition spec_remainingSeconds (cd : gmap string Q) (now : Q) (user : string) (C : Z) : Z :=
  match cd !! user with
  | None => 0
  | Some t => Z.max 0 (Qceiling (inject_Z C - (now - t))%Q)
  end.

(* ================================================================== *)
(** ** Predicates used in the statements *)

(** The cooldown check of [send_private_message] refuses the send: a
    configuration accessor was passed and [can_send] answers false. *)
Definition cooling (h : Host) (user_id : string) (config_getter : option Config)
    (w : World) : Prop :=
  exists cfg, config_getter = Some cfg /\
    fst (PrivateChatCooldown.can_send h user_id
           (get_config general_cooldown_seconds 300%Z cfg) w) = Ok false.

(** The transport was reached and reported success: a stream was found for
    the user and delivering the message over it returned true. *)
Definition delivered (h : Host) (user_id message platform : string) : Prop :=
  exists cs, h_get_stream_by_user_id h user_id platform = Ok (Some cs) /\
    h_text_to_stream h message (stream_id cs) = Ok true.

(** The profile branch of [is_user_known] says yes: the id parses as an
    integer and the identity directory returns a non-empty profile id. *)
Definition profile_entry (h : Host) (platform user_id : string) : Prop :=
  exists n pid, int_of_str h user_id = Some n /\
    h_get_person_id h platform n = Ok (Some pid) /\ pid <> "".

(** The stream branch of [is_user_known] says yes: the registry returns a
    private stream for the user. *)
Definition stream_exists (h : Host) (platform user_id : string) : Prop :=
  exists cs, h_get_stream_by_user_id h user_id platform = Ok (Some cs).

(** The calls [get_user_id_by_name] may make after the name lookup: only
    the read of the profile's [user_id] attribute. *)
Definition resolver_call (c : Call) : Prop :=
  exists pid, c = CallGetPersonValue pid "user_id".

(** No match of [old] starts inside [p] when [p] is followed by [rest]. *)
Fixpoint no_match_before (old p rest : string) : Prop :=
  match p with
  | EmptyString => True
  | String _ p' =>
      starts_with old (p +:+ rest) = false /\ no_match_before old p' rest
  end.

(** A piece of a template that holds no [{nickname}] token. *)
Definition token_free (p : string) : Prop := contains "{nickname}" p = false.




(** An interval of draws of [random.random()], with either end in or out. *)
Record interval := {
  lo : Q;
  hi : Q;
  lo_closed : bool;
  hi_closed : bool
}.

Definition in_interval (r : Q) (i : interval) : Prop :=
  (if lo_closed i then lo i <= r else lo i < r)%Q /\
  (if hi_closed i then r <= hi i else r < hi i)%Q.

(** The interval lies within [0,1]. *)
Definition within_unit (i : interval) : Prop :=
  (0 <= lo i)%Q /\ (lo i <= hi i)%Q /\ (hi i <= 1)%Q.

(** Modelled from the spec: [random.random()] is uniform on [0,1), so the
    probability that the draw falls in an interval within [0,1] is the
    length of the interval. *)
Definition uniform_probability (i : interval) : Q := (hi i - lo i)%Q.

(** The draws for which [get_greeting_message] uses the default template
    when the list is not empty, and those for which it picks from the list. *)
Definition default_draws : interval :=
  {| lo := 0; hi := 3 # 10; lo_closed := true; hi_closed := true |}.

Definition list_draws : interval :=
  {| lo := 3 # 10; hi := 1; lo_closed := false; hi_closed := false |}.

(** How many of the [n] equally likely positions that [random.choice]
    draws on a sequence of length [n] select the entry at position [i]. *)
Definition picks_of (n i : nat) : nat :=
  length (List.filter (fun p => (p mod n =? i)%nat) (seq 0 n)).

(* ================================================================== *)
(** ** Concrete configurations, hosts and worlds *)

(** The configuration file sets nothing: every option takes its default. *)
Definition default_config : Config := {|
  general_enabled := None;
  general_cooldown_seconds := None;
  smart_chat_only_known_users := None;
  messages_default_greeting := None;
  messages_random_greetings := None
|}.

(** The same configuration with the two switches set as given. *)
Definition with_switches (enabled only_known : option bool) (cfg : Config) : Config := {|
  general_enabled := enabled;
  general_cooldown_seconds := general_cooldown_seconds cfg;
  smart_chat_only_known_users := only_known;
  messages_default_greeting := messages_default_greeting cfg;
  messages_random_greetings := messages_random_greetings cfg
|}.

(** The policy engine asks to message [target]; platform qq, no user in
    the current conversation. *)
Definition action_to (target : string) (cfg : Config) : ProactivePrivateChatAction.Self := {|
  ProactivePrivateChatAction.action_data := {[ "target_user_id" := target ]};
  ProactivePrivateChatAction.platform := "qq";
  ProactivePrivateChatAction.user_id := None;
  ProactivePrivateChatAction.config := cfg
|}.

(** The command [/私聊 <target> [message]] as matched by [command_pattern]. *)
Definition command_on (groups : gmap string string) (cfg : Config)
  : PrivateChatCommand.Self := {|
  PrivateChatCommand.matched_groups := groups;
  PrivateChatCommand.config := cfg
|}.

(** A host whose clock always reads [t] and whose directory and registry
    are empty. *)
Definition empty_host (t : Q) : Host := {|
  clock := fun _ => t;
  random_draw := 0%Q;
  random_pick := 0;
  h_unicode_isdigit := fun _ => false;
  h_unicode_int := fun _ => None;
  h_get_person_id_by_name := fun _ => Ok None;
  h_get_person_value := fun _ _ dflt => Ok dflt;
  h_get_person_id := fun _ _ => Ok None;
  h_get_stream_by_user_id := fun _ _ => Ok None;
  h_text_to_stream := fun _ _ => Ok false;
  h_get_private_streams := fun _ => Ok [];
  h_get_stream_info := fun _ => Ok ∅
|}.

(** A host that knows user 42 (profile p42, nickname Alex, a private
    stream s42 on qq) and nobody else, and whose transport delivers. *)
Definition alex_host : Host := {|
  clock := fun _ => 1700000000%Q;
  random_draw := 0%Q;
  random_pick := 0;
  h_unicode_isdigit := fun _ => false;
  h_unicode_int := fun _ => None;
  h_get_person_id_by_name := fun _ => Ok None;
  h_get_person_value := fun pid field dflt =>
    match pid with
    | Some _ => if String.eqb field "nickname" then Ok (Some "Alex") else Ok dflt
    | None => Ok dflt
    end;
  h_get_person_id := fun _ n => if (n =? 42)%Z then Ok (Some "p42") else Ok None;
  h_get_stream_by_user_id := fun u p =>
    if String.eqb u "42" && String.eqb p "qq"
    then Ok (Some {| stream_id := "s42" |}) else Ok None;
  h_text_to_stream := fun _ _ => Ok true;
  h_get_private_streams := fun _ => Ok [ {| stream_id := "s42" |} ];
  h_get_stream_info := fun _ => Ok {[ "user_id" := "42"; "user_name" := "Alex" ]}
|}.

(** A fresh process: nobody was ever sent a message. *)
Definition fresh_world : World := {| cooldowns := ∅; ticks := 0; calls := [] |}.

(** User 42 was sent a message at time [t]. *)
Definition sent_world (t : Q) : World :=
  {| cooldowns := {[ "42" := t ]}; ticks := 0; calls := [] |}.

(** A configuration with three greetings to pick from. *)
Definition greetings_config : Config := {|
  general_enabled := None;
  general_cooldown_seconds := None;
  smart_chat_only_known_users := None;
  messages_default_greeting := None;
  messages_random_greetings :=
    Some ["早上好，{nickname}"; "{nickname}，在吗？{nickname}！"; "好久不见"]
|}.

(** A host like [alex_host] whose [random.random()] gives one half and
    whose [random.choice] draws the entropy 4. *)
Definition half_host : Host := {|
  clock := fun _ => 1700000000%Q;
  random_draw := 1 # 2;
  random_pick := 4;
  h_unicode_isdigit := fun _ => false;
  h_unicode_int := fun _ => None;
  h_get_person_id_by_name := fun _ => Ok None;
  h_get_person_value := fun _ _ dflt => Ok dflt;
  h_get_person_id := fun _ _ => Ok None;
  h_get_stream_by_user_id := fun _ _ => Ok None;
  h_text_to_stream := fun _ _ => Ok true;
  h_get_private_streams := fun _ => Ok [];
  h_get_stream_info := fun _ => Ok ∅
|}.

(** A host with 21 private streams [s1] .. [s21]; the description of a
    stream gives its identifier as the user id, and no user name. *)
Definition crowded_host : Host := {|
  clock := fun _ => 1700000000%Q;
  random_draw := 0;
  random_pick := 0;
  h_unicode_isdigit := fun _ => false;
  h_unicode_int := fun _ => None;
  h_get_person_id_by_name := fun _ => Ok None;
  h_get_person_value := fun _ _ dflt => Ok dflt;
  h_get_person_id := fun _ _ => Ok None;
  h_get_stream_by_user_id := fun _ _ => Ok None;
  h_text_to_stream := fun _ _ => Ok true;
  h_get_private_streams := fun _ =>
    Ok (map (fun k => {| stream_id := "s" +:+ pretty k |}) (seq 1 21));
  h_get_stream_info := fun s => Ok {[ "user_id" := stream_id s ]}
|}.

(* ================================================================== *)
(** ** Effects of a computation *)

(** Kinds of collaborator calls. *)
Definition is_delivery (c : Call) : bool :=
  match c with
  | CallTextToStream _ _ _ _ => true
  | _ => false
  end.

Definition is_name_lookup (c : Call) : bool :=
  match c with
  | CallGetPersonIdByName _ => true
  | _ => false
  end.

(** [m] makes only calls that satisfy [P], reads no clock and leaves the
    cooldown state as it is, whatever it returns or raises. *)
Definition quiet {A} (P : Call -> Prop) (m : M A) : Prop :=
  forall w, exists trace,
    calls (snd (m w)) = (calls w ++ trace)%list /\ Forall P trace /\
    cooldowns (snd (m w)) = cooldowns w /\ ticks (snd (m w)) = ticks w.

(** A host like [empty_host] whose clock advances by 100 seconds per
    reading, from 1700000100. *)
Definition later_host : Host := {|
  clock := fun n => inject_Z (1700000100 + 100 * Z.of_nat n);
  random_draw := 0%Q;
  random_pick := 0;
  h_unicode_isdigit := fun _ => false;
  h_unicode_int := fun _ => None;
  h_get_person_id_by_name := fun _ => Ok None;
  h_get_person_value := fun _ _ dflt => Ok dflt;
  h_get_person_id := fun _ _ => Ok None;
  h_get_stream_by_user_id := fun _ _ => Ok None;
  h_text_to_stream := fun _ _ => Ok false;
  h_get_private_streams := fun _ => Ok [];
  h_get_stream_info := fun _ => Ok ∅
|}.

(** Lookups in the identity directory by id or attribute and in the stream
    registry by user. *)
Definition is_lookup (c : Call) : bool :=
  match c with
  | CallGetPersonValue _ _ | CallGetPersonId _ _ | CallGetStreamByUserId _ _ => true
  | _ => false
  end.

(** The deliveries among the calls of a trace. *)
Definition deliveries (trace : list Call) : list Call := List.filter is_delivery trace.

(** What a run of an entry point that dispatches, started in [w], does to
    the world.  [ok] reads the success flag off the returned value.  The
    run makes only calls that satisfy [P] and at most one delivery.  When
    it returns success, the cooldown record of one target (which satisfies
    [T]) was set to a clock reading and the one delivery of the run
    reported success; when it returns failure or raises, the cooldown
    state is as before. *)
Definition effect_at {A} (h : Host) (P : Call -> Prop) (T : string -> Prop)
    (ok : A -> bool) (m : M A) (w : World) : Prop :=
  exists r w' trace,
    m w = (r, w') /\
    calls w' = (calls w ++ trace)%list /\
    Forall P trace /\
    (length (deliveries trace) <= 1)%nat /\
    match r with
    | Ok a =>
        if ok a
        then exists target n text sid,
               T target /\
               cooldowns w' = <[target := clock h n]> (cooldowns w) /\
               deliveries trace = [CallTextToStream text sid true true] /\
               h_text_to_stream h text sid = Ok true
        else cooldowns w' = cooldowns w
    | Raise _ => cooldowns w' = cooldowns w
    end.

(** The same, from every world. *)
Definition dispatch_effect {A} (h : Host) (P : Call -> Prop) (T : string -> Prop)
    (ok : A -> bool) (m : M A) : Prop :=
  forall w, effect_at h P T ok m w.

(** The policy engine names no target; the current conversation is with
    the user whose id is the name alex. *)
Definition current_user_action : ProactivePrivateChatAction.Self := {|
  ProactivePrivateChatAction.action_data := ∅;
  ProactivePrivateChatAction.platform := "qq";
  ProactivePrivateChatAction.user_id := Some "alex";
  ProactivePrivateChatAction.config := default_config
|}.

(** The world of [alex_host] after a first message to user 42. *)
Definition alex_greeted : World :=
  snd (send_private_message alex_host "42" "hi" "qq" None fresh_world).

(** What the entry points may deliver when the caller gave the message
    body [custom]: that body with the token replaced by some nickname, and
    so the body itself when it holds no token. *)
Definition delivers_custom (custom : string) (c : Call) : Prop :=
  forall text sid typing storage,
    c = CallTextToStream text sid typing storage ->
    (exists nick, text = str_replace custom "{nickname}" nick) /\
    (token_free custom -> text = custom).

(** The policy engine asks to tell user 42 a message of its own. *)
Definition told_action : ProactivePrivateChatAction.Self := {|
  ProactivePrivateChatAction.action_data :=
    {[ "target_user_id" := "42"; "message_content" := "thinking of you" ]};
  ProactivePrivateChatAction.platform := "qq";
  ProactivePrivateChatAction.user_id := None;
  ProactivePrivateChatAction.config := default_config
|}.

(** The same trigger with [smart_chat.only_known_users] set as given. *)
Definition action_with (self : ProactivePrivateChatAction.Self) (only_known : bool)
  : ProactivePrivateChatAction.Self := {|
  ProactivePrivateChatAction.action_data := ProactivePrivateChatAction.action_data self;
  ProactivePrivateChatAction.platform := ProactivePrivateChatAction.platform self;
  ProactivePrivateChatAction.user_id := ProactivePrivateChatAction.user_id self;
  ProactivePrivateChatAction.config :=
    with_switches (general_enabled (ProactivePrivateChatAction.config self))
      (Some only_known) (ProactivePrivateChatAction.config self)
|}.

(** Two worlds with the same cooldown state and the same clock position;
    their call traces may differ. *)
Definition same_state (w1 w2 : World) : Prop :=
  cooldowns w1 = cooldowns w2 /\ ticks w1 = ticks w2.

(** [m] does not look at the call trace: from two worlds in the same state
    it gives the same result and ends in the same state. *)
Definition trace_blind {A} (m : M A) : Prop :=
  forall w1 w2, same_state w1 w2 ->
    fst (m w1) = fst (m w2) /\ same_state (snd (m w1)) (snd (m w2)).

(* ================================================================== *)
(** * Properties *)

Open Scope Z_scope.

(** ** Rationals: truncation and floor *)

Lemma int_of_float_nonneg (x : Q) : (0 <= x)%Q -> int_of_float x = Qfloor x.
Proof.
  destruct x as [n d]. unfold Qle, int_of_float, Qfloor. simpl. intros Hn.
  apply Z.quot_div_nonneg; lia.
Qed.

Lemma int_of_float_neg (x : Q) : (x < 0)%Q -> int_of_float x <= 0.
Proof.
  destruct x as [n d]. unfold Qlt, int_of_float. simpl. intros Hn.
  assert (Hq : 0 <= Z.quot (- n) (Z.pos d)) by (apply Z.quot_pos; lia).
  rewrite Z.quot_opp_l in Hq by lia. lia.
Qed.

Lemma Qfloor_neg (x : Q) : (x < 0)%Q -> Qfloor x < 0.
Proof.
  destruct x as [n d]. unfold Qlt, Qfloor. simpl. intros Hn.
  apply Z.div_lt_upper_bound; lia.
Qed.

(** What [max(0, int(x))] is, for every rational [x]. *)
Lemma max0_int_of_float (x : Q) : Z.max 0 (int_of_float x) = Z.max 0 (Qfloor x).
Proof.
  destruct (Qlt_le_dec x 0) as [Hneg | Hpos].
  - pose proof (int_of_float_neg x Hneg). pose proof (Qfloor_neg x Hneg). lia.
  - by rewrite int_of_float_nonneg.
Qed.

Lemma max0_floor_zero (x : Q) : Z.max 0 (Qfloor x) = 0 <-> (x < 1)%Q.
Proof.
  split.
  - intros H. apply Qlt_le_trans with (inject_Z (Qfloor x + 1)).
    + apply Qlt_floor.
    + change 1%Q with (inject_Z 1). rewrite <- Zle_Qle. lia.
  - intros H. destruct (Z_lt_le_dec (Qfloor x) 1) as [|Hge]; [lia|].
    exfalso. apply (Qlt_irrefl x).
    apply Qlt_le_trans with 1%Q; [done|].
    apply Qle_trans with (inject_Z (Qfloor x)); [|apply Qfloor_le].
    change 1%Q with (inject_Z 1). by rewrite <- Zle_Qle.
Qed.

(** ** The cooldown tracker, run from a world *)

Lemma can_send_run h u C w :
  PrivateChatCooldown.can_send h u C w =
  (Ok (Qle_bool (inject_Z C) (clock h (ticks w) - default 0%Q (cooldowns w !! u))%Q),
   tick w).
Proof. reflexivity. Qed.

Lemma get_remaining_time_run h u C w :
  PrivateChatCooldown.get_remaining_time h u C w =
  (Ok (Z.max 0 (int_of_float
         (inject_Z C - (clock h (ticks w) - default 0%Q (cooldowns w !! u)))%Q)),
   tick w).
Proof. reflexivity. Qed.

Lemma record_send_run h u w :
  PrivateChatCooldown.record_send h u w =
  (Ok tt, {| cooldowns := <[u := clock h (ticks w)]> (cooldowns w);
             ticks := S (ticks w); calls := calls w |}).
Proof. reflexivity. Qed.

(** C1, counterexample.  A user with no record is refused when the window
    is longer than the time since the epoch: at time 1700000000 with a
    window of 2000000000 seconds [can_send] answers false, where the
    contract [spec_canSend] says true. *)
Lemma can_send_no_record_refused :
  cooldowns fresh_world !! "42" = None /\
  fst (PrivateChatCooldown.can_send (empty_host 1700000000) "42" 2000000000 fresh_world)
    = Ok false /\
  spec_canSend (cooldowns fresh_world) 1700000000 "42" 2000000000 = true.
Proof. repeat split. Qed.

(** C1, as amended.  [can_send(U, C)] returns true iff the time elapsed
    since U's last-send timestamp is at least C, where a user with no
    record counts as last sent at time 0 (the epoch); so for a user with no
    record the result is true iff C is at most the current time, and for a
    recorded user it is true iff the elapsed time is at least C.  The call
    never raises and leaves the cooldown state and the call trace as they
    were (only the clock is read). *)
Theorem can_send_elapsed h u C w :
  exists b w',
    PrivateChatCooldown.can_send h u C w = (Ok b, w') /\
    cooldowns w' = cooldowns w /\ calls w' = calls w /\
    (b = true <->
       (inject_Z C <= clock h (ticks w) - default 0 (cooldowns w !! u))%Q) /\
    (cooldowns w !! u = None ->
       (b = true <-> (inject_Z C <= clock h (ticks w))%Q)) /\
    (forall t, cooldowns w !! u = Some t ->
       (b = true <-> (inject_Z C <= clock h (ticks w) - t)%Q)).
Proof.
  eexists _, _. rewrite can_send_run. split; [reflexivity|].
  split; [reflexivity|]. split; [reflexivity|].
  split; [apply Qle_bool_iff|]. split.
  - intros ->. simpl. rewrite Qle_bool_iff.
    assert (E : (clock h (ticks w) - 0 == clock h (ticks w))%Q) by ring.
    by rewrite E.
  - intros t ->. simpl. apply Qle_bool_iff.
Qed.

(** C2, counterexample.  Half a second after a send, with a window of 300
    seconds, 299.5 seconds remain: the code truncates to 299, the contract
    [spec_remainingSeconds] rounds up to 300.  And for a user never sent
    to, a window longer than the time since the epoch leaves a positive
    remainder, where the contract says 0. *)
Lemma get_remaining_time_truncates :
  (fst (PrivateChatCooldown.get_remaining_time
          (empty_host (3400000001 # 2)) "42" 300 (sent_world 1700000000))
     = Ok 299 /\
   spec_remainingSeconds (cooldowns (sent_world 1700000000))
     (3400000001 # 2) "42" 300 = 300) /\
  (cooldowns fresh_world !! "42" = None /\
   fst (PrivateChatCooldown.get_remaining_time
          (empty_host 1700000000) "42" 2000000000 fresh_world)
     = Ok 300000000 /\
   spec_remainingSeconds (cooldowns fresh_world) 1700000000 "42" 2000000000 = 0).
Proof. repeat split. Qed.

(** C2, as amended.  [get_remaining_time(U, C)] returns
    [max(0, floor(C - elapsed))], the remaining time truncated to whole
    seconds, where elapsed is the time since U's last-send timestamp and a
    user with no record counts as last sent at time 0; it is 0 exactly when
    less than one second remains, and never negative.  The call never
    raises and leaves the cooldown state unchanged. *)
Theorem get_remaining_time_floor h u C w :
  let remaining :=
    (inject_Z C - (clock h (ticks w) - default 0 (cooldowns w !! u)))%Q in
  exists r w',
    PrivateChatCooldown.get_remaining_time h u C w = (Ok r, w') /\
    cooldowns w' = cooldowns w /\
    r = Z.max 0 (Qfloor remaining) /\
    0 <= r /\
    ((0 <= remaining)%Q ->
       (inject_Z r <= remaining)%Q /\ (remaining < inject_Z (r + 1))%Q) /\
    (r = 0 <-> (remaining < 1)%Q) /\
    (cooldowns w !! u = None ->
       (r = 0 <-> (inject_Z C - clock h (ticks w) < 1)%Q)).
Proof.
  intros remaining. eexists _, _. rewrite get_remaining_time_run.
  split; [reflexivity|]. split; [reflexivity|].
  fold remaining. rewrite max0_int_of_float.
  split; [reflexivity|]. split; [lia|]. split; [|split].
  - intros Hpos.
    assert (0 <= Qfloor remaining).
    { change 0 with (Qfloor 0). by apply Qfloor_resp_le. }
    rewrite Z.max_r by lia. split; [apply Qfloor_le | apply Qlt_floor].
  - apply max0_floor_zero.
  - intros Hnone. rewrite max0_floor_zero. unfold remaining. rewrite Hnone. simpl.
    assert (E : (inject_Z C - (clock h (ticks w) - 0)
                 == inject_Z C - clock h (ticks w))%Q) by ring.
    by rewrite E.
Qed.

(** C3, counterexample.  Half a second after a send with a window of one
    second, [get_remaining_time] is already 0 while [can_send] is still
    false. *)
Lemma remaining_zero_but_cannot_send :
  fst (PrivateChatCooldown.can_send
         (empty_host (3400000001 # 2)) "42" 1 (sent_world 1700000000))
    = Ok false /\
  fst (PrivateChatCooldown.get_remaining_time
         (empty_host (3400000001 # 2)) "42" 1 (sent_world 1700000000))
    = Ok 0.
Proof. split; reflexivity. Qed.

(** C3, as amended.  Evaluated at the same instant on the same state,
    [can_send(U, C)] true implies [get_remaining_time(U, C)] equal to 0;
    [get_remaining_time] is 0 iff less than one second of the window
    remains, and [can_send] is true iff none remains, so the two disagree
    exactly during the last second of the window. *)
Theorem can_send_implies_no_remaining h u C w :
  let remaining :=
    (inject_Z C - (clock h (ticks w) - default 0 (cooldowns w !! u)))%Q in
  exists b r,
    fst (PrivateChatCooldown.can_send h u C w) = Ok b /\
    fst (PrivateChatCooldown.get_remaining_time h u C w) = Ok r /\
    (b = true -> r = 0) /\
    (b = true <-> (remaining <= 0)%Q) /\
    (r = 0 <-> (remaining < 1)%Q) /\
    (b = false /\ r = 0 <-> (0 < remaining)%Q /\ (remaining < 1)%Q).
Proof.
  intros remaining. eexists _, _.
  rewrite can_send_run, get_remaining_time_run. simpl fst.
  split; [reflexivity|]. split; [reflexivity|].
  fold remaining. rewrite max0_int_of_float, max0_floor_zero.
  set (elapsed := (clock h (ticks w) - default 0 (cooldowns w !! u))%Q).
  assert (Hb : Qle_bool (inject_Z C) elapsed = true <-> (remaining <= 0)%Q).
  { rewrite Qle_bool_iff. unfold remaining. fold elapsed.
    split; intros H.
    - apply (Qplus_le_l _ _ elapsed). ring_simplify. exact H.
    - apply (Qplus_le_l _ _ elapsed) in H. ring_simplify in H. exact H. }
  split; [|split; [exact Hb|split; [reflexivity|]]].
  - intros H. apply Hb in H. by apply Qle_lt_trans with 0%Q.
  - rewrite <- not_true_iff_false, Hb. split.
    + intros [Hn Hlt]. split; [|done]. by apply Qnot_le_lt.
    + intros [Hpos Hlt]. split; [|done]. by apply Qlt_not_le.
Qed.

(** ** The dispatcher *)

(** Unfolds a run of the dispatcher down to the answers of the host. *)
Ltac run_monad :=
  unfold send_private_message, try_except, bind, ret, raise,
    chat_api_get_stream_by_user_id, send_api_text_to_stream,
    person_api_get_person_id, person_api_get_person_value,
    person_api_get_person_id_by_name, call_host,
    PrivateChatCooldown.can_send, PrivateChatCooldown.get_remaining_time,
    PrivateChatCooldown.record_send, get_cooldowns, set_cooldown, time_time;
  simpl.

(** Opens conjunctions, witnesses and constructor equations among the
    hypotheses. *)
Ltac break_hyps :=
  repeat match goal with
  | H : _ /\ _ |- _ => destruct H
  | H : exists _, _ |- _ => destruct H
  | H : Some _ = Some _ |- _ => injection H as H
  | H : Ok _ = Ok _ |- _ => injection H as H
  end; subst.

(** Closes what is left to show once a run has been computed. *)
Ltac finish :=
  repeat split; intros; break_hyps; try congruence; eauto;
  try (intros ?; break_hyps; congruence);
  try match goal with H : ~ _ |- _ =>
    exfalso; apply H; eexists; split; [reflexivity | congruence] end.

(** C4.  Every failing run of [send_private_message] (cooldown active, no
    stream, transport reporting failure, an exception in the stream lookup
    or in the delivery) returns a failure result and leaves the whole
    cooldown state unchanged; a run succeeds exactly when the delivery was
    made and reported success, and then, and only then, the record of the
    target user is set to the clock reading taken at that moment.  No
    exception escapes. *)
Theorem send_private_message_cooldown h user message platform cfg w :
  exists ok detail w',
    send_private_message h user message platform cfg w = (Ok (ok, detail), w') /\
    (ok = false -> cooldowns w' = cooldowns w) /\
    (ok = true -> exists n, ticks w' = S n /\
       cooldowns w' = <[user := clock h n]> (cooldowns w)) /\
    (ok = true <-> ~ cooling h user cfg w /\ delivered h user message platform) /\
    (ok = true -> exists cs,
       calls w' = (calls w ++ [CallGetStreamByUserId user platform;
                               CallTextToStream message (stream_id cs) true true])%list) /\
    (cooling h user cfg w -> ok = false /\ calls w' = calls w) /\
    (h_get_stream_by_user_id h user platform = Ok None -> ok = false) /\
    (forall e, h_get_stream_by_user_id h user platform = Raise e -> ok = false) /\
    (forall cs, h_get_stream_by_user_id h user platform = Ok (Some cs) ->
       h_text_to_stream h message (stream_id cs) <> Ok true -> ok = false).
Proof.
  unfold cooling, delivered.
  destruct cfg as [c|]; run_monad.
  - destruct (Qle_bool _ _) eqn:Hcan; simpl.
    + destruct (h_get_stream_by_user_id h user platform) as [[cs|]|e] eqn:Hs; simpl.
      * destruct (h_text_to_stream h message (stream_id cs)) as [[|]|e] eqn:Ht;
          simpl; eexists _, _, _; (split; [reflexivity|]); simpl;
          rewrite <- ?app_assoc; finish.
      * eexists _, _, _; (split; [reflexivity|]); simpl; finish.
      * eexists _, _, _; (split; [reflexivity|]); simpl; finish.
    + eexists _, _, _; (split; [reflexivity|]); simpl; finish.
  - destruct (h_get_stream_by_user_id h user platform) as [[cs|]|e] eqn:Hs; simpl.
    + destruct (h_text_to_stream h message (stream_id cs)) as [[|]|e] eqn:Ht;
        simpl; eexists _, _, _; (split; [reflexivity|]); simpl;
        rewrite <- ?app_assoc; finish.
    + eexists _, _, _; (split; [reflexivity|]); simpl; finish.
    + eexists _, _, _; (split; [reflexivity|]); simpl; finish.
Qed.

(** ** The identity resolver *)







Lemma truthy_Some (s : string) : truthy (Some s) = true <-> s <> "".
Proof.
  unfold truthy. rewrite negb_true_iff. apply String.eqb_neq.
Qed.

(** [is_user_known] never raises, answers true exactly when one of its two
    branches says yes, and does not touch the cooldown state. *)
Lemma is_user_known_run h platform user_id w :
  exists b w',
    is_user_known h platform user_id w = (Ok b, w') /\
    cooldowns w' = cooldowns w /\
    (b = true <-> profile_entry h platform user_id \/ stream_exists h platform user_id).
Proof.
  unfold is_user_known, profile_entry, stream_exists, py_int, try_except, bind, ret, raise,
    person_api_get_person_id, chat_api_get_stream_by_user_id, call_host.
  destruct (int_of_str h user_id) as [n|] eqn:Hn; simpl.
  - destruct (h_get_person_id h platform n) as [[pid|]|e] eqn:Hp; simpl.
    + destruct (negb (pid =? "")%string) eqn:Hpid; simpl.
      * eexists _, _. split; [reflexivity|]. split; [reflexivity|].
        split; [|done]. intros _. left. exists n, pid. repeat split; try done.
        by apply truthy_Some.
      * destruct (h_get_stream_by_user_id h user_id platform) as [[cs|]|e] eqn:Hs;
          simpl; eexists _, _; (split; [reflexivity|]); (split; [reflexivity|]).
        -- split; [|done]. intros _. right. eauto.
        -- split; [done|]. intros [(n' & pid' & [= <-] & Hp' & Hne) | (cs & [=])].
           rewrite Hp in Hp'. injection Hp' as <-.
           apply truthy_Some in Hne. unfold truthy in Hne. congruence.
        -- split; [done|]. intros [(n' & pid' & [= <-] & Hp' & Hne) | (cs & [=])].
           rewrite Hp in Hp'. injection Hp' as <-.
           apply truthy_Some in Hne. unfold truthy in Hne. congruence.
    + destruct (h_get_stream_by_user_id h user_id platform) as [[cs|]|e] eqn:Hs;
        simpl; eexists _, _; (split; [reflexivity|]); (split; [reflexivity|]).
      * split; [|done]. intros _. right. eauto.
      * split; [done|]. intros [(n' & pid' & [= <-] & Hp' & _) | (cs & [=])]. congruence.
      * split; [done|]. intros [(n' & pid' & [= <-] & Hp' & _) | (cs & [=])]. congruence.
    + destruct (h_get_stream_by_user_id h user_id platform) as [[cs|]|e'] eqn:Hs;
        simpl; eexists _, _; (split; [reflexivity|]); (split; [reflexivity|]).
      * split; [|done]. intros _. right. eauto.
      * split; [done|]. intros [(n' & pid' & [= <-] & Hp' & _) | (cs & [=])]. congruence.
      * split; [done|]. intros [(n' & pid' & [= <-] & Hp' & _) | (cs & [=])]. congruence.
  - destruct (h_get_stream_by_user_id h user_id platform) as [[cs|]|e'] eqn:Hs;
      simpl; eexists _, _; (split; [reflexivity|]); (split; [reflexivity|]).
    + split; [|done]. intros _. right. eauto.
    + split; [done|]. by intros [(n' & pid' & [=] & _) | (cs & [=])].
    + split; [done|]. by intros [(n' & pid' & [=] & _) | (cs & [=])].
Qed.


(** [get_user_id_by_name] never raises; it looks the name up and at most
    reads the [user_id] attribute, touching nothing else. *)
Lemma get_user_id_by_name_run h platform username w :
  exists r w' trace,
    get_user_id_by_name h platform username w = (Ok r, w') /\
    cooldowns w' = cooldowns w /\ ticks w' = ticks w /\
    calls w' = (calls w ++ CallGetPersonIdByName username :: trace)%list /\
    Forall resolver_call trace.
Proof.
  unfold get_user_id_by_name, try_except, bind, ret,
    person_api_get_person_id_by_name, person_api_get_person_value, call_host.
  destruct (h_get_person_id_by_name h username) as [pid|e]; simpl.
  - destruct (truthy pid); simpl.
    + destruct (h_get_person_value h pid "user_id" None) as [[u|]|e]; simpl;
        eexists _, _, [_]; (split; [reflexivity|]); simpl;
        rewrite <- app_assoc; repeat split; repeat constructor; by eexists.
    + eexists _, _, []; (split; [reflexivity|]); by repeat split.
  - eexists _, _, []; (split; [reflexivity|]); by repeat split.
Qed.

(** ** The autonomous trigger *)

(** C6.  Past the enabled check, for every non-empty target string that
    [isdigit()] does not accept, [execute] attempts name-to-id resolution
    (the first call of the run is the name lookup of that target), and if
    resolution returns no id it returns failure with the user-not-found
    message without attempting a send: the only calls of the run are those
    of the resolver (no profile lookup by id, no stream lookup, no
    delivery), so the unresolved name is never passed on as a user id, and
    the cooldown state is unchanged. *)
Theorem execute_unresolved_name h self w target :
  get_config general_enabled true (ProactivePrivateChatAction.config self) = true ->
  ProactivePrivateChatAction.action_data self !! "target_user_id" = Some target ->
  target <> "" ->
  str_isdigit h target = false ->
  fst (get_user_id_by_name h (ProactivePrivateChatAction.platform self) target w) = Ok None ->
  exists w' trace,
    ProactivePrivateChatAction.execute h self w =
      (Ok (false, "未找到用户 " +:+ target +:+ " 的ID，请检查用户名是否正确"), w') /\
    calls w' = (calls w ++ CallGetPersonIdByName target :: trace)%list /\
    Forall resolver_call trace /\
    cooldowns w' = cooldowns w.
Proof.
  intros Hen Htarget Hne Hdig Hres.
  unfold ProactivePrivateChatAction.execute.
  rewrite Hen, Htarget. simpl.
  apply String.eqb_neq in Hne. rewrite Hne, Hdig. simpl.
  destruct (get_user_id_by_name_run h (ProactivePrivateChatAction.platform self) target w)
    as (r & w' & trace & Hrun & Hcd & _ & Hcalls & Htrace).
  rewrite Hrun in Hres. simpl in Hres. injection Hres as ->.
  unfold bind. rewrite Hrun. simpl.
  exists w', trace. by repeat split.
Qed.

(** The theorem at work: the empty host knows no alice, and the default
    configuration leaves the feature enabled. *)
Lemma execute_unresolved_name_witness :
  exists w' trace,
    ProactivePrivateChatAction.execute (empty_host 1700000000)
      (action_to "alice" default_config) fresh_world =
      (Ok (false, "未找到用户 " +:+ "alice" +:+ " 的ID，请检查用户名是否正确"), w') /\
    calls w' = (calls fresh_world ++ CallGetPersonIdByName "alice" :: trace)%list /\
    Forall resolver_call trace /\
    cooldowns w' = cooldowns fresh_world.
Proof.
  apply (execute_unresolved_name (empty_host 1700000000)
           (action_to "alice" default_config) fresh_world "alice");
    [reflexivity | reflexivity | discriminate | reflexivity | reflexivity].
Defined.

(** ** Dispatch without a configuration accessor, and the command path *)

(** A successful dispatch went through a delivery that reported success. *)
Lemma send_private_message_success h user message platform cfg w detail w' :
  send_private_message h user message platform cfg w = (Ok (true, detail), w') ->
  delivered h user message platform.
Proof.
  unfold delivered. destruct cfg as [c|]; run_monad.
  - destruct (Qle_bool _ _); simpl; [|congruence].
    destruct (h_get_stream_by_user_id h user platform) as [[cs|]|e]; simpl;
      [|congruence..].
    destruct (h_text_to_stream h message (stream_id cs)) as [[|]|e] eqn:Ht;
      simpl; [|congruence..]. eauto.
  - destruct (h_get_stream_by_user_id h user platform) as [[cs|]|e]; simpl;
      [|congruence..].
    destruct (h_text_to_stream h message (stream_id cs)) as [[|]|e] eqn:Ht;
      simpl; [|congruence..]. eauto.
Qed.

(** C9.  Called with [config_getter=None], [send_private_message] never
    consults the cooldown: whatever the cooldown state it goes on to the
    stream lookup, its result does not depend on the world it starts from,
    it succeeds exactly when the delivery is made and reports success, and
    on that success the target's record is still set to the current clock
    reading. *)
Theorem send_private_message_without_config h user message platform w :
  exists ok detail w' trace,
    send_private_message h user message platform None w = (Ok (ok, detail), w') /\
    calls w' = (calls w ++ CallGetStreamByUserId user platform :: trace)%list /\
    (forall w2, fst (send_private_message h user message platform None w2)
                = Ok (ok, detail)) /\
    (ok = true <-> delivered h user message platform) /\
    (ok = true ->
       detail = "私聊消息发送成功" /\
       cooldowns w' = <[user := clock h (ticks w)]> (cooldowns w)) /\
    (ok = false -> cooldowns w' = cooldowns w).
Proof.
  unfold delivered. run_monad.
  destruct (h_get_stream_by_user_id h user platform) as [[cs|]|e] eqn:Hs; simpl.
  - destruct (h_text_to_stream h message (stream_id cs)) as [[|]|e] eqn:Ht; simpl.
    + eexists _, _, _, [_]. split; [reflexivity|]. simpl.
      rewrite <- app_assoc. finish.
    + eexists _, _, _, [_]. split; [reflexivity|]. simpl.
      rewrite <- app_assoc. finish.
    + eexists _, _, _, [_]. split; [reflexivity|]. simpl.
      rewrite <- app_assoc. finish.
  - eexists _, _, _, []. split; [reflexivity|]. simpl. finish.
  - eexists _, _, _, []. split; [reflexivity|]. simpl. finish.
Qed.

(** A successful command went through a delivery over an existing private
    stream of the target on the default platform. *)
Lemma command_success_stream h self w detail w' :
  PrivateChatCommand.execute h self w = (Ok (true, detail, true), w') ->
  stream_exists h DEFAULT_PLATFORM
    (default "" (PrivateChatCommand.matched_groups self !! "target_id")).
Proof.
  unfold PrivateChatCommand.execute.
  set (target := default "" (PrivateChatCommand.matched_groups self !! "target_id")).
  destruct (String.eqb target ""); [unfold ret; congruence|].
  unfold bind at 1.
  destruct (try_except _ _ w) as [[nickname|e] w1]; [|congruence].
  unfold bind at 1.
  match goal with |- context [match ?m w1 with _ => _ end] =>
    destruct (m w1) as [[message|e] w2] end; [|congruence].
  unfold bind at 1.
  destruct (send_private_message h target message DEFAULT_PLATFORM _ w2)
    as [[[[|] result_msg]|e] w3] eqn:Hsend; unfold ret; try congruence.
  intros _. apply send_private_message_success in Hsend.
  destruct Hsend as (cs & Hcs & _). by exists cs.
Qed.

(** A target with an existing private stream is classified as known. *)
Lemma stream_exists_known h platform user_id w :
  stream_exists h platform user_id ->
  fst (is_user_known h platform user_id w) = Ok true.
Proof.
  intros Hs.
  destruct (is_user_known_run h platform user_id w) as (b & w' & Hrun & _ & Hb).
  rewrite Hrun. simpl. f_equal. apply Hb. by right.
Qed.

(** C8, counterexample.  User 7 is unknown to the host (no profile, no
    stream): the command cannot deliver to it, and this holds for every
    host, since a target classified as unknown on the default platform has
    no stream there. *)
Lemma command_unknown_target_fails :
  fst (is_user_known alex_host DEFAULT_PLATFORM "7" fresh_world) = Ok false /\
  fst (PrivateChatCommand.execute alex_host
         (command_on {[ "target_id" := "7" ]} default_config) fresh_world)
    = Ok (false, "发送失败: 未找到用户 7 的私聊流", true) /\
  (forall h self w w0,
     fst (is_user_known h DEFAULT_PLATFORM
            (default "" (PrivateChatCommand.matched_groups self !! "target_id")) w0)
       = Ok false ->
     forall detail,
       fst (PrivateChatCommand.execute h self w) <> Ok (true, detail, true)).
Proof.
  split; [reflexivity|]. split; [reflexivity|].
  intros h self w w0 Hunknown detail Hrun.
  destruct (PrivateChatCommand.execute h self w) as [r w'] eqn:Hexec.
  simpl in Hrun. subst r.
  apply command_success_stream in Hexec.
  rewrite (stream_exists_known _ _ _ w0 Hexec) in Hunknown. congruence.
Qed.

(** C8, as amended.  The outcome of the command entry point is independent
    of [general.enabled] and [smart_chat.only_known_users]: the command
    path makes no enabled check and no known-user classification before it
    delegates to [send_private_message], so a send can succeed with the
    kill-switch off (where the autonomous trigger refuses).  A send never
    succeeds for a target that [is_user_known] classifies as unknown on the
    default platform: success requires an existing private stream, and
    that alone makes the target known. *)
Theorem command_ignores_switches :
  (forall h groups cfg enabled only_known w,
     PrivateChatCommand.execute h
       (command_on groups (with_switches enabled only_known cfg)) w
     = PrivateChatCommand.execute h (command_on groups cfg) w) /\
  (fst (PrivateChatCommand.execute alex_host
          (command_on {[ "target_id" := "42" ]}
             (with_switches (Some false) (Some true) default_config)) fresh_world)
     = Ok (true, "已向 Alex(42) 发送私聊消息", true) /\
   fst (ProactivePrivateChatAction.execute alex_host
          (action_to "42" (with_switches (Some false) (Some true) default_config))
          fresh_world)
     = Ok (false, "主动私聊功能已禁用")) /\
  (forall h self w detail w',
     PrivateChatCommand.execute h self w = (Ok (true, detail, true), w') ->
     forall w0,
       fst (is_user_known h DEFAULT_PLATFORM
              (default "" (PrivateChatCommand.matched_groups self !! "target_id")) w0)
         = Ok true).
Proof.
  split; [reflexivity|]. split; [split; reflexivity|].
  intros h self w detail w' Hexec w0.
  apply stream_exists_known. by apply command_success_stream in Hexec.
Qed.

(** ** [str.replace] and the greeting *)

Lemma app_nil_str (r : string) : "" +:+ r = r.
Proof. reflexivity. Qed.

Lemma app_cons_str (c : ascii) (s r : string) : String c s +:+ r = String c (s +:+ r).
Proof. reflexivity. Qed.

Lemma app_assoc_str (a b c : string) : (a +:+ b) +:+ c = a +:+ (b +:+ c).
Proof.
  induction a as [|x a IH]; [done|]. rewrite !app_cons_str. by rewrite IH.
Qed.

Lemma starts_with_app (old rest : string) : starts_with old (old +:+ rest) = true.
Proof.
  induction old as [|a old IH]; [done|].
  rewrite app_cons_str. cbn [starts_with]. by rewrite Ascii.eqb_refl, IH.
Qed.

Lemma starts_with_split (old s : string) :
  starts_with old s = true -> exists r, s = old +:+ r.
Proof.
  revert s. induction old as [|a old IH]; intros s H.
  - by exists s.
  - destruct s as [|b s]; [done|]. cbn [starts_with] in H.
    apply andb_true_iff in H as [Hab Hs]. apply Ascii.eqb_eq in Hab as ->.
    destruct (IH s Hs) as [r ->]. by exists r.
Qed.

Lemma contains_app_r (old a b : string) :
  contains old (a +:+ b) = false -> contains old b = false.
Proof.
  induction a as [|c a IH]; [done|].
  rewrite app_cons_str. cbn [contains].
  intros H. apply orb_false_iff in H as [_ H]. by apply IH.
Qed.

(** The characters still to skip are dropped without a look. *)
Lemma replace_scan_skip old new x rest :
  replace_scan old new (String.length x) (x +:+ rest) = replace_scan old new 0 rest.
Proof.
  induction x as [|c x IH]; [by destruct rest|].
  rewrite app_cons_str. exact IH.
Qed.

(** A match at the head is replaced, and the scan resumes after it. *)
Lemma replace_scan_match old new rest :
  old <> "" ->
  replace_scan old new 0 (old +:+ rest) = new +:+ replace_scan old new 0 rest.
Proof.
  intros Hne. destruct old as [|a old]; [done|].
  rewrite app_cons_str. cbn [replace_scan]. rewrite <- app_cons_str.
  rewrite starts_with_app.
  replace (String.length (String a old) - 1)%nat with (String.length old)
    by (simpl; lia).
  by rewrite replace_scan_skip.
Qed.

(** Where no match starts, the text is copied. *)
Lemma replace_scan_copy old new p rest :
  no_match_before old p rest ->
  replace_scan old new 0 (p +:+ rest) = p +:+ replace_scan old new 0 rest.
Proof.
  induction p as [|c p IH]; [done|].
  intros [Hhead Htail]. rewrite app_cons_str in *.
  cbn [replace_scan]. rewrite Hhead. by rewrite IH.
Qed.

Lemma replace_scan_absent old new p :
  contains old p = false -> replace_scan old new 0 p = p.
Proof.
  induction p as [|c p IH]; [done|].
  intros H. cbn [contains] in H. apply orb_false_iff in H as [Hhead Htail].
  cbn [replace_scan]. rewrite Hhead. by rewrite IH.
Qed.

(** The token begins with an opening brace and holds no other: a match
    cannot begin in the text before a token and run into it. *)
Lemma token_no_straddle p rest :
  p <> "" ->
  starts_with "{nickname}" p = false ->
  starts_with "{nickname}" (p +:+ "{nickname}" +:+ rest) = false.
Proof.
  intros Hne H. destruct p as [|c1 p]; [done|]. clear Hne.
  do 9 (destruct p as [|? p];
        [rewrite ?app_cons_str, ?app_nil_str; simpl;
         rewrite ?andb_false_r; reflexivity|]).
  rewrite ?app_cons_str. simpl in *. exact H.
Qed.

Lemma token_free_no_match p rest :
  token_free p -> no_match_before "{nickname}" p ("{nickname}" +:+ rest).
Proof.
  unfold token_free. induction p as [|c p IH]; [done|].
  intros H. cbn [contains] in H. apply orb_false_iff in H as [Hhead Htail].
  split; [|by apply IH]. by apply token_no_straddle.
Qed.

(** Replacing the token in pieces joined by it joins them by the new text. *)
Lemma replace_join_pieces new pieces :
  Forall token_free pieces ->
  str_replace (str_join "{nickname}" pieces) "{nickname}" new = str_join new pieces.
Proof.
  unfold str_replace.
  induction pieces as [|p [|q rest] IH]; intros Hfree.
  - done.
  - apply replace_scan_absent. by inversion Hfree.
  - inversion Hfree as [|? ? Hp Hrest]; subst.
    change (str_join "{nickname}" (p :: q :: rest))
      with (p +:+ "{nickname}" +:+ str_join "{nickname}" (q :: rest)).
    change (str_join new (p :: q :: rest))
      with (p +:+ new +:+ str_join new (q :: rest)).
    rewrite replace_scan_copy by (by apply token_free_no_match).
    rewrite replace_scan_match by done.
    by rewrite IH.
Qed.

(** Every template is token-free pieces joined by the token. *)
Lemma token_pieces_exist (s : string) :
  exists pieces, s = str_join "{nickname}" pieces /\ Forall token_free pieces.
Proof.
  induction s as [|c s (pieces & -> & Hfree)].
  - exists [""]. split; [done|]. by repeat constructor.
  - destruct pieces as [|p rest].
    + exists [String c ""]. split; [done|]. constructor; [|done].
      unfold token_free. simpl. by rewrite andb_false_r.
    + inversion Hfree as [|? ? Hp Hrest]; subst.
      assert (Hcons : String c (str_join "{nickname}" (p :: rest))
                      = str_join "{nickname}" (String c p :: rest)).
      { by destruct rest. }
      destruct (starts_with "{nickname}" (String c p)) eqn:Hhead.
      * apply starts_with_split in Hhead as [r Hr].
        exists ("" :: r :: rest). split.
        -- rewrite Hcons.
           change (str_join "{nickname}" ("" :: r :: rest))
             with ("{nickname}" +:+ str_join "{nickname}" (r :: rest)).
           destruct rest; cbn [str_join].
           ++ by rewrite Hr.
           ++ rewrite Hr. by rewrite !app_assoc_str.
        -- constructor; [done|]. constructor; [|done].
           unfold token_free in *. injection Hr as -> Hr.
           apply (contains_app_r _ "nickname}"). by rewrite <- Hr.
      * exists (String c p :: rest). split; [done|].
        constructor; [|done]. unfold token_free in *.
        cbn [contains]. by rewrite Hhead, Hp.
Qed.

(** Among the positions below [m] counted from [a], one is [i] when [i]
    lies among them, none otherwise. *)
Lemma filter_eqb_seq (i m : nat) : forall a,
  length (List.filter (fun p => (p =? i)%nat) (seq a m))
  = if ((a <=? i) && (i <? a + m))%nat then 1%nat else 0%nat.
Proof.
  induction m as [|m IH]; intros a.
  - simpl. destruct (Nat.leb_spec a i), (Nat.ltb_spec i (a + 0)); simpl; lia.
  - cbn [seq List.filter]. specialize (IH (S a)).
    destruct (Nat.eqb_spec a i) as [Hai | Hai]; cbn [length]; rewrite IH;
      destruct (Nat.leb_spec (S a) i), (Nat.leb_spec a i),
        (Nat.ltb_spec i (S a + m)), (Nat.ltb_spec i (a + S m));
      simpl; lia.
Qed.

(** [random.choice] is uniform over the positions: of the [n] equally
    likely draws, exactly one selects each position. *)
Lemma picks_of_one (n i : nat) : (i < n)%nat -> picks_of n i = 1%nat.
Proof.
  intros Hi. unfold picks_of.
  rewrite (List.filter_ext_in _ (fun p => (p =? i)%nat)).
  - rewrite filter_eqb_seq.
    destruct (Nat.leb_spec 0 i), (Nat.ltb_spec i (0 + n)); simpl; lia.
  - intros p Hp. apply in_seq in Hp. rewrite Nat.mod_small by lia. done.
Qed.

(** C7.  [get_greeting_message] substitutes the nickname into a template
    chosen as follows: with an empty random-greetings list, the configured
    default whatever the random draw; with a non-empty list, the default
    when the draw of [random.random()] lies in [0, 0.3] and the entry of
    the list at the position drawn by [random.choice] when it lies in
    (0.3, 1).  The two intervals split the draws of [0,1) between them, and
    for a draw uniform on [0,1) they have probability 0.3 and 0.7; the
    position is uniform over the list, each position being selected by
    exactly one of the equally likely draws of [random.choice].  In every
    case every occurrence of [{nickname}] is replaced: the template is
    token-free pieces joined by the token, and the result is the same
    pieces joined by the nickname. *)
Theorem get_greeting_message_choice h cfg nickname w :
  (0 <= random_draw h)%Q -> (random_draw h < 1)%Q ->
  let default_greeting :=
    get_config messages_default_greeting "嗨 {nickname}，最近怎么样呀？" cfg in
  let pool := get_config messages_random_greetings [] cfg in
  exists template,
    get_greeting_message h cfg (Some nickname) w
      = (Ok (str_replace template "{nickname}" nickname), w) /\
    (pool = [] -> template = default_greeting) /\
    (pool <> [] -> in_interval (random_draw h) default_draws ->
       template = default_greeting) /\
    (pool <> [] -> in_interval (random_draw h) list_draws ->
       pool !! (random_pick h mod length pool)%nat = Some template) /\
    (in_interval (random_draw h) default_draws \/
     in_interval (random_draw h) list_draws) /\
    ~ (in_interval (random_draw h) default_draws /\
       in_interval (random_draw h) list_draws) /\
    within_unit default_draws /\ within_unit list_draws /\
    (uniform_probability default_draws == 3 # 10)%Q /\
    (uniform_probability list_draws == 7 # 10)%Q /\
    (forall i, (i < length pool)%nat -> picks_of (length pool) i = 1%nat) /\
    (exists pieces,
       template = str_join "{nickname}" pieces /\ Forall token_free pieces) /\
    (forall pieces,
       Forall token_free pieces -> template = str_join "{nickname}" pieces ->
       str_replace template "{nickname}" nickname = str_join nickname pieces).
Proof.
  intros Hlo Hhi default_greeting pool.
  assert (Hdraws :
    (in_interval (random_draw h) default_draws \/
     in_interval (random_draw h) list_draws) /\
    ~ (in_interval (random_draw h) default_draws /\
       in_interval (random_draw h) list_draws) /\
    within_unit default_draws /\ within_unit list_draws /\
    (uniform_probability default_draws == 3 # 10)%Q /\
    (uniform_probability list_draws == 7 # 10)%Q /\
    (forall i, (i < length pool)%nat -> picks_of (length pool) i = 1%nat)).
  { unfold in_interval, within_unit, uniform_probability. cbn.
    split.
    { destruct (Qlt_le_dec (3 # 10) (random_draw h)); [right | left]; by split. }
    split.
    { intros [[_ Hle] [Hlt _]]. by apply Qlt_not_le in Hlt. }
    split; [by repeat split|]. split; [by repeat split|].
    split; [reflexivity|]. split; [reflexivity|].
    intros i Hi. by apply picks_of_one. }
  assert (Hpieces : forall template,
    (exists pieces,
       template = str_join "{nickname}" pieces /\ Forall token_free pieces) /\
    (forall pieces,
       Forall token_free pieces -> template = str_join "{nickname}" pieces ->
       str_replace template "{nickname}" nickname = str_join nickname pieces)).
  { intros template. split; [apply token_pieces_exist|].
    intros pieces Hfree ->. by apply replace_join_pieces. }
  assert (Hrest : forall template,
    (in_interval (random_draw h) default_draws \/
     in_interval (random_draw h) list_draws) /\
    ~ (in_interval (random_draw h) default_draws /\
       in_interval (random_draw h) list_draws) /\
    within_unit default_draws /\ within_unit list_draws /\
    (uniform_probability default_draws == 3 # 10)%Q /\
    (uniform_probability list_draws == 7 # 10)%Q /\
    (forall i, (i < length pool)%nat -> picks_of (length pool) i = 1%nat) /\
    (exists pieces,
       template = str_join "{nickname}" pieces /\ Forall token_free pieces) /\
    (forall pieces,
       Forall token_free pieces -> template = str_join "{nickname}" pieces ->
       str_replace template "{nickname}" nickname = str_join nickname pieces)).
  { intros template. specialize (Hpieces template). tauto. }
  clear Hdraws Hpieces.
  unfold get_greeting_message. fold pool. fold default_greeting.
  destruct pool as [|g pool'] eqn:Hpool.
  - exists default_greeting. split; [reflexivity|].
    split; [done|]. split; [done|]. split; [done|]. apply Hrest.
  - cbn [nonempty andb].
    destruct (Qle_bool (random_draw h) (3 # 10)) eqn:Hdraw; cbn [negb].
    + exists default_greeting. split; [reflexivity|].
      split; [done|]. split; [done|]. split; [|apply Hrest].
      intros _ [Hlt _]. cbn in Hlt.
      apply Qle_bool_iff in Hdraw. by apply Qlt_not_le in Hlt.
    + assert (Hlen : (random_pick h mod length (g :: pool') < length (g :: pool'))%nat).
      { apply Nat.mod_upper_bound. simpl. lia. }
      apply lookup_lt_is_Some_2 in Hlen as [t Ht].
      exists t. unfold random_choice, bind. rewrite Ht. split; [reflexivity|].
      split; [done|]. split; [|split; [done | apply Hrest]].
      intros _ [_ Hle]. cbn in Hle. apply Qle_bool_iff in Hle. congruence.
Qed.

(** The theorem at work: of three greetings, a draw of one half picks from
    the list, the entropy 4 selects the second greeting, and both tokens of
    it are replaced. *)
Lemma get_greeting_message_choice_witness :
  exists template,
    get_greeting_message half_host greetings_config (Some "Alex") fresh_world
      = (Ok "Alex，在吗？Alex！", fresh_world) /\
    template = "{nickname}，在吗？{nickname}！" /\
    in_interval (random_draw half_host) list_draws /\
    picks_of 3 1 = 1%nat.
Proof.
  destruct (get_greeting_message_choice half_host greetings_config "Alex" fresh_world)
    as (template & Hrun & _ & _ & Hpick & _ & _ & _ & _ & _ & _ & Hone & _);
    [discriminate | reflexivity |].
  assert (Hin : in_interval (random_draw half_host) list_draws)
    by (split; reflexivity).
  specialize (Hpick ltac:(discriminate) Hin). injection Hpick as <-.
  exists "{nickname}，在吗？{nickname}！".
  split; [exact Hrun|]. split; [reflexivity|]. split; [exact Hin|].
  apply (Hone 1%nat). cbn. lia.
Defined.

(** ** The list command *)

Lemma render_streams_run h streams : forall i infos w,
  Forall2 (fun s info => h_get_stream_info h s = Ok info) streams infos ->
  exists w',
    ListPrivateStreamsCommand.render_streams h i streams w
      = (Ok (imap (fun k => ListPrivateStreamsCommand.stream_line (i + k)) infos), w') /\
    cooldowns w' = cooldowns w.
Proof.
  induction streams as [|s streams IH]; intros i infos w Hinfos.
  - inversion Hinfos; subst. by exists w.
  - inversion Hinfos as [|? info ? infos' Hs Hrest]; subst.
    cbn [ListPrivateStreamsCommand.render_streams].
    unfold bind at 1, chat_api_get_stream_info, call_host. rewrite Hs.
    destruct (IH (S i) infos' (logged (CallGetStreamInfo s) w) Hrest)
      as (w' & Hrun & Hcd).
    unfold bind, ret. rewrite Hrun. exists w'. split; [|done].
    rewrite imap_cons, Nat.add_0_r. do 3 f_equal.
    apply imap_ext. intros k info' _. simpl. by rewrite Nat.add_succ_r.
Qed.

Lemma str_join_concat (sep : string) (parts : list string) :
  str_join sep parts = String.concat sep parts.
Proof.
  induction parts as [|p [|q rest] IH]; [done..|].
  change (str_join sep (p :: q :: rest)) with (p +:+ sep +:+ str_join sep (q :: rest)).
  by rewrite IH.
Qed.

(** C10.  When the registry and the stream descriptions answer, the list
    command returns success with: the fixed no-streams message when the
    list is empty; otherwise, joined by line feeds, the header, an empty
    line, one line per stream for the first 20 streams at most (its index
    counted from 1, a full stop, its display name and, in brackets after
    [ID: ], its id, with the fixed texts for a missing name or id), and,
    when there are more than 20 streams, a last line that gives how many
    remain. *)
Theorem list_private_streams_render h w streams infos :
  h_get_private_streams h DEFAULT_PLATFORM = Ok streams ->
  Forall2 (fun s info => h_get_stream_info h s = Ok info) (take 20 streams) infos ->
  exists text w',
    ListPrivateStreamsCommand.execute h w = (Ok (true, text, true), w') /\
    (streams = [] -> text = "当前没有可用的私聊流") /\
    (streams <> [] ->
       text = String.concat (String "010"%char "")
         (["📋 可用的私聊流列表：" ; ""]
          ++ imap (fun k info =>
                     pretty (S k) +:+ ". "
                     +:+ default "未知用户" (info !! "user_name")
                     +:+ " (ID: " +:+ default "未知" (info !! "user_id") +:+ ")")
               infos
          ++ (if (20 <? length streams)%nat
              then ["... 还有 " +:+ pretty (length streams - 20)%nat +:+ " 个私聊流"]
              else []))) /\
    length infos = Nat.min 20 (length streams) /\
    cooldowns w' = cooldowns w.
Proof.
  intros Hstreams Hinfos.
  assert (Hlen : length infos = Nat.min 20 (length streams)).
  { apply Forall2_length in Hinfos. by rewrite length_take in Hinfos. }
  unfold ListPrivateStreamsCommand.execute, try_except.
  unfold bind at 1, chat_api_get_private_streams, call_host. rewrite Hstreams.
  destruct streams as [|s streams'].
  - eexists _, _. split; [reflexivity|].
    split; [done|]. split; [intros Hne; by destruct Hne|].
    split; [exact Hlen|]. done.
  - set (streams := s :: streams') in *.
    destruct (render_streams_run h (take 20 streams) 1 infos
                (logged (CallGetPrivateStreams DEFAULT_PLATFORM) w) Hinfos)
      as (w' & Hrun & Hcd).
    unfold bind, ret. rewrite Hrun.
    eexists _, _. split; [reflexivity|].
    split; [done|]. split; [intros _; by rewrite str_join_concat|].
    split; [exact Hlen|]. done.
Qed.

(** The theorem at work: on the host that has the single stream of user
    42 the text is the header, an empty line and the line of Alex; on the
    host that has 21 streams it holds 20 stream lines and the note that one
    more remains. *)
Lemma list_private_streams_render_witness :
  fst (ListPrivateStreamsCommand.execute alex_host fresh_world)
    = Ok (true,
          "📋 可用的私聊流列表：" +:+ String "010"%char (String "010"%char
          "1. Alex (ID: 42)"), true) /\
  fst (ListPrivateStreamsCommand.execute crowded_host fresh_world)
    = Ok (true,
          String.concat (String "010"%char "")
            (["📋 可用的私聊流列表：" ; ""]
             ++ map (fun k => pretty k +:+ ". 未知用户 (ID: s" +:+ pretty k +:+ ")")
                  (seq 1 20)
             ++ ["... 还有 1 个私聊流"]), true).
Proof.
  split.
  - destruct (list_private_streams_render alex_host fresh_world
                [ {| stream_id := "s42" |} ]
                [ {[ "user_id" := "42"; "user_name" := "Alex" ]} ])
      as (text & w' & Hrun & _ & Htext & _);
      [reflexivity | repeat constructor |].
    rewrite Hrun, Htext by discriminate. reflexivity.
  - destruct (list_private_streams_render crowded_host fresh_world
                (map (fun k => {| stream_id := "s" +:+ pretty k |}) (seq 1 21))
                (map (fun k => {[ "user_id" := "s" +:+ pretty k ]}) (seq 1 20)))
      as (text & w' & Hrun & _ & Htext & _);
      [reflexivity | repeat constructor |].
    rewrite Hrun, Htext by discriminate. reflexivity.
Defined.

(* ================================================================== *)
(** * Further properties of the code *)

(** ** The cooldown tracker: recording and querying *)

Lemma record_then_run {A} h u (k : M A) w :
  bind (PrivateChatCooldown.record_send h u) (fun _ => k) w =
  k {| cooldowns := <[u := clock h (ticks w)]> (cooldowns w);
       ticks := S (ticks w); calls := calls w |}.
Proof. reflexivity. Qed.

(** X1.  After [record_send(U)] the record of U is the clock reading just
    taken and every other record is as before; a [can_send(U, C)] that
    follows answers true iff the next clock reading is at least C seconds
    later, and for any other user V it answers what it would have answered
    without the recording. *)
Theorem record_send_then_can_send h u C w :
  exists b w',
    bind (PrivateChatCooldown.record_send h u)
         (fun _ => PrivateChatCooldown.can_send h u C) w = (Ok b, w') /\
    cooldowns w' !! u = Some (clock h (ticks w)) /\
    (forall v, v <> u -> cooldowns w' !! v = cooldowns w !! v) /\
    (b = true <->
       (inject_Z C <= clock h (S (ticks w)) - clock h (ticks w))%Q) /\
    (forall v, v <> u ->
       fst (bind (PrivateChatCooldown.record_send h u)
                 (fun _ => PrivateChatCooldown.can_send h v C) w)
       = fst (PrivateChatCooldown.can_send h v C (tick w))).
Proof.
  eexists _, _. rewrite record_then_run, can_send_run. cbn [cooldowns ticks tick].
  split; [reflexivity|]. cbn [cooldowns].
  split; [apply lookup_insert_eq|].
  split; [intros v Hv; by apply lookup_insert_ne|].
  split.
  - rewrite lookup_insert_eq. cbn [default from_option]. apply Qle_bool_iff.
  - intros v Hv. rewrite record_then_run, !can_send_run. cbn [fst cooldowns ticks tick].
    by rewrite lookup_insert_ne.
Qed.

(** X2.  As time advances with U's record unchanged, [can_send(U, C)] once
    true stays true and [get_remaining_time(U, C)] never grows. *)
Theorem cooldown_monotone_in_time h u C w1 w2 :
  cooldowns w1 !! u = cooldowns w2 !! u ->
  (clock h (ticks w1) <= clock h (ticks w2))%Q ->
  exists b1 b2 r1 r2,
    fst (PrivateChatCooldown.can_send h u C w1) = Ok b1 /\
    fst (PrivateChatCooldown.can_send h u C w2) = Ok b2 /\
    fst (PrivateChatCooldown.get_remaining_time h u C w1) = Ok r1 /\
    fst (PrivateChatCooldown.get_remaining_time h u C w2) = Ok r2 /\
    (b1 = true -> b2 = true) /\
    r2 <= r1.
Proof.
  intros Hrec Hclock. eexists _, _, _, _.
  rewrite !can_send_run, !get_remaining_time_run. cbn [fst].
  do 4 (split; [reflexivity|]). rewrite <- Hrec.
  set (last := default 0%Q (cooldowns w1 !! u)).
  split.
  - rewrite !Qle_bool_iff. intros H1.
    apply Qle_trans with (clock h (ticks w1) - last)%Q; [done|].
    by apply Qplus_le_l.
  - rewrite !max0_int_of_float.
    apply Z.max_le_compat_l. apply Qfloor_resp_le.
    apply Qplus_le_r. apply Qopp_le_compat. by apply Qplus_le_l.
Qed.

(** The theorem at work: user 42 was sent to at 1700000000; the clock of
    the first world reads 1700000100, that of the second 1700000200. *)
Lemma cooldown_monotone_in_time_witness :
  exists b1 b2 r1 r2,
    fst (PrivateChatCooldown.can_send later_host "42" 300 (sent_world 1700000000)) = Ok b1 /\
    fst (PrivateChatCooldown.can_send later_host "42" 300 (tick (sent_world 1700000000)))
      = Ok b2 /\
    fst (PrivateChatCooldown.get_remaining_time later_host "42" 300
           (sent_world 1700000000)) = Ok r1 /\
    fst (PrivateChatCooldown.get_remaining_time later_host "42" 300
           (tick (sent_world 1700000000))) = Ok r2 /\
    (b1 = true -> b2 = true) /\
    r2 <= r1.
Proof.
  apply (cooldown_monotone_in_time later_host "42" 300
           (sent_world 1700000000) (tick (sent_world 1700000000)));
    [reflexivity | vm_compute; discriminate].
Defined.

(** X3.  Queried right after [record_send(U)], before the clock has moved,
    [get_remaining_time(U, C)] is the whole window [max(0, C)], and
    [can_send(U, C)] is false for every positive window. *)
Theorem record_send_full_window h u C w :
  (clock h (S (ticks w)) == clock h (ticks w))%Q ->
  fst (bind (PrivateChatCooldown.record_send h u)
            (fun _ => PrivateChatCooldown.get_remaining_time h u C) w)
    = Ok (Z.max 0 C) /\
  (0 < C ->
   fst (bind (PrivateChatCooldown.record_send h u)
             (fun _ => PrivateChatCooldown.can_send h u C) w) = Ok false).
Proof.
  intros Hclock.
  rewrite !record_then_run, get_remaining_time_run, can_send_run.
  cbn [fst cooldowns ticks]. rewrite lookup_insert_eq. cbn [default from_option].
  set (t0 := clock h (ticks w)) in *. set (t1 := clock h (S (ticks w))) in *.
  split.
  - f_equal. rewrite max0_int_of_float.
    assert (E : (inject_Z C - (t1 - t0) == inject_Z C)%Q) by (rewrite Hclock; ring).
    by rewrite E, Qfloor_Z.
  - intros HC. f_equal. apply not_true_iff_false. rewrite Qle_bool_iff.
    assert (E : (t1 - t0 == 0)%Q) by (rewrite Hclock; ring).
    rewrite E. change 0%Q with (inject_Z 0). rewrite <- Zle_Qle. lia.
Qed.

(** The theorem at work on a clock that stands still. *)
Lemma record_send_full_window_witness :
  fst (bind (PrivateChatCooldown.record_send (empty_host 1700000000) "42")
            (fun _ => PrivateChatCooldown.get_remaining_time
                        (empty_host 1700000000) "42" 300) fresh_world)
    = Ok (Z.max 0 300) /\
  (0 < 300 ->
   fst (bind (PrivateChatCooldown.record_send (empty_host 1700000000) "42")
             (fun _ => PrivateChatCooldown.can_send
                         (empty_host 1700000000) "42" 300) fresh_world) = Ok false).
Proof.
  apply (record_send_full_window (empty_host 1700000000) "42" 300 fresh_world).
  reflexivity.
Defined.

(** ** The identity resolver: contract and call discipline *)

(** X4.  [get_user_id_by_name] never raises; it returns an id exactly when
    the name lookup gives a non-empty profile id and the read of that
    profile's [user_id] attribute gives a value, and [None] in every other
    case (nothing found, attribute missing, any exception).  Its
    [platform] argument is not used: the answer is the same for every
    platform. *)
Theorem get_user_id_by_name_contract h platform username w :
  exists r w',
    get_user_id_by_name h platform username w = (Ok r, w') /\
    (forall u, r = Some u <->
       exists pid, h_get_person_id_by_name h username = Ok pid /\ truthy pid = true /\
                   h_get_person_value h pid "user_id" None = Ok (Some u)) /\
    (forall platform' w2,
       fst (get_user_id_by_name h platform' username w2) = Ok r).
Proof.
  unfold get_user_id_by_name, try_except, bind, ret,
    person_api_get_person_id_by_name, person_api_get_person_value, call_host.
  destruct (h_get_person_id_by_name h username) as [pid|e] eqn:Hpid; cbn.
  - destruct (truthy pid) eqn:Htruthy; cbn.
    + destruct (h_get_person_value h pid "user_id" None) as [[u|]|e] eqn:Hval; cbn;
        eexists _, _; (split; [reflexivity|]); (split; [|reflexivity]);
        intros u'; split.
      * intros [= <-]. by exists pid.
      * intros (pid' & [= <-] & _ & Hu). congruence.
      * done.
      * intros (pid' & [= <-] & _ & Hu). congruence.
      * done.
      * intros (pid' & [= <-] & _ & Hu). congruence.
    + eexists _, _; (split; [reflexivity|]); (split; [|reflexivity]).
      intros u'; split; [done|]. intros (pid' & [= <-] & Ht & _). congruence.
  - eexists _, _; (split; [reflexivity|]); (split; [|reflexivity]).
    intros u'; split; [done|]. by intros (pid' & [=] & _).
Qed.


(** ** Effects of the entry points *)

Lemma quiet_ret {A} P (a : A) : quiet P (ret a).
Proof. intros w. exists []. cbn. by rewrite app_nil_r. Qed.

Lemma quiet_raise {A} P e : quiet P (@raise A e).
Proof. intros w. exists []. cbn. by rewrite app_nil_r. Qed.

Lemma quiet_call_host {A} (P : Call -> Prop) c (answer : result A) :
  P c -> quiet P (call_host c answer).
Proof. intros Hc w. exists [c]. cbn. repeat split. by constructor. Qed.

Lemma quiet_bind {A B} P (m : M A) (k : A -> M B) :
  quiet P m -> (forall a, quiet P (k a)) -> quiet P (bind m k).
Proof.
  intros Hm Hk w. unfold bind.
  destruct (Hm w) as (t1 & Hc1 & Hp1 & Hcd1 & Ht1).
  destruct (m w) as [[a|e] w1]; cbn in *.
  - destruct (Hk a w1) as (t2 & Hc2 & Hp2 & Hcd2 & Ht2).
    exists (t1 ++ t2)%list. rewrite Hc2, Hc1, Hcd2, Hcd1, Ht2, Ht1, app_assoc.
    repeat split. by apply Forall_app.
  - by exists t1.
Qed.

Lemma quiet_try_except {A} P (m : M A) (handler : exn -> M A) :
  quiet P m -> (forall e, quiet P (handler e)) -> quiet P (try_except m handler).
Proof.
  intros Hm Hk w. unfold try_except.
  destruct (Hm w) as (t1 & Hc1 & Hp1 & Hcd1 & Ht1).
  destruct (m w) as [[a|e] w1]; cbn in *.
  - by exists t1.
  - destruct (Hk e w1) as (t2 & Hc2 & Hp2 & Hcd2 & Ht2).
    exists (t1 ++ t2)%list. rewrite Hc2, Hc1, Hcd2, Hcd1, Ht2, Ht1, app_assoc.
    repeat split. by apply Forall_app.
Qed.

Lemma quiet_py_int P h s : quiet P (py_int h s).
Proof. unfold py_int. destruct (int_of_str h s); [apply quiet_ret | apply quiet_raise]. Qed.

Lemma quiet_replace_nickname P template nickname :
  quiet P (replace_nickname template nickname).
Proof. destruct nickname; [apply quiet_ret | apply quiet_raise]. Qed.

Lemma quiet_get_greeting_message P h cfg nickname :
  quiet P (get_greeting_message h cfg nickname).
Proof.
  unfold get_greeting_message. apply quiet_bind.
  - destruct (_ && _); [|apply quiet_ret].
    unfold random_choice. destruct (_ !! _); [apply quiet_ret | apply quiet_raise].
  - intros. apply quiet_replace_nickname.
Qed.

Lemma quiet_is_user_known h platform user_id :
  quiet (fun c => is_lookup c = true) (is_user_known h platform user_id).
Proof.
  unfold is_user_known. apply quiet_bind.
  - apply quiet_try_except; [|intros; apply quiet_ret].
    apply quiet_bind; [apply quiet_py_int|]. intros n.
    apply quiet_bind; [by apply quiet_call_host|]. intros. apply quiet_ret.
  - intros [|]; [apply quiet_ret|]. apply quiet_bind.
    + apply quiet_try_except; [|intros; apply quiet_ret].
      apply quiet_bind; [by apply quiet_call_host|]. intros. apply quiet_ret.
    + intros [|]; apply quiet_ret.
Qed.

(** The nickname lookup of both entry points. *)
Lemma quiet_nickname h platform target fallback :
  quiet (fun c => is_lookup c = true)
    (try_except
       (n <- py_int h target ;;
        person_id <- person_api_get_person_id h platform n ;;
        person_api_get_person_value h person_id "nickname" (Some fallback))
       (fun _ => ret (Some fallback))).
Proof.
  apply quiet_try_except; [|intros; apply quiet_ret].
  apply quiet_bind; [apply quiet_py_int|]. intros n.
  apply quiet_bind; [by apply quiet_call_host|]. intros. by apply quiet_call_host.
Qed.

Lemma quiet_get_user_id_by_name h platform username :
  quiet (fun c => is_lookup c = true \/ is_name_lookup c = true)
    (get_user_id_by_name h platform username).
Proof.
  unfold get_user_id_by_name.
  apply quiet_try_except; [|intros; apply quiet_ret].
  apply quiet_bind; [apply quiet_call_host; by right|]. intros pid.
  destruct (negb (truthy pid)); [apply quiet_ret|].
  apply quiet_bind; [apply quiet_call_host; by left|]. intros [u|]; apply quiet_ret.
Qed.

Lemma deliveries_app t1 t2 : deliveries (t1 ++ t2) = (deliveries t1 ++ deliveries t2)%list.
Proof. apply List.filter_app. Qed.

Lemma deliveries_none t :
  Forall (fun c => is_delivery c = false) t -> deliveries t = [].
Proof.
  induction 1 as [|c t Hc _ IH]; [done|].
  unfold deliveries in *. cbn. by rewrite Hc.
Qed.

Lemma dispatch_effect_ret {A} h P T ok (a : A) :
  ok a = false -> dispatch_effect h P T ok (ret a).
Proof.
  unfold dispatch_effect, effect_at.
  intros Hok w. exists (Ok a), w, []. rewrite Hok, app_nil_r. cbn.
  repeat split; try done. lia.
Qed.

Lemma dispatch_effect_raise {A} h P T ok e :
  dispatch_effect h P T ok (@raise A e).
Proof.
  unfold dispatch_effect, effect_at.
  intros w. exists (Raise e), w, []. rewrite app_nil_r. cbn.
  repeat split; try done. lia.
Qed.

(** A quiet prefix without deliveries does not change the effect. *)
Lemma dispatch_effect_bind {A B} h (Q P : Call -> Prop) T ok
    (m : M A) (k : A -> M B) :
  (forall c, Q c -> P c) -> (forall c, Q c -> is_delivery c = false) ->
  quiet Q m -> (forall a, dispatch_effect h P T ok (k a)) ->
  dispatch_effect h P T ok (bind m k).
Proof.
  unfold dispatch_effect, effect_at.
  intros HQP HQd Hm Hk w. unfold bind.
  destruct (Hm w) as (t1 & Hc1 & Hq1 & Hcd1 & Ht1).
  assert (Hd1 : deliveries t1 = []).
  { apply deliveries_none. eapply Forall_impl; eauto. }
  assert (Hp1 : Forall P t1) by (eapply Forall_impl; eauto).
  destruct (m w) as [[a|e] w1]; cbn in *.
  - destruct (Hk a w1) as (r & w' & t2 & Hrun & Hc2 & Hp2 & Hlen & Hr).
    exists r, w', (t1 ++ t2)%list. rewrite Hrun, Hc2, Hc1, app_assoc.
    rewrite deliveries_app, Hd1. cbn [app].
    split; [done|]. split; [done|]. split; [by apply Forall_app|]. split; [done|].
    rewrite Hcd1 in Hr. exact Hr.
  - exists (Raise e), w1, t1. rewrite Hd1. cbn. repeat split; try done. lia.
Qed.

Lemma dispatch_effect_weaken {A} h (P P' : Call -> Prop) (T T' : string -> Prop)
    ok (m : M A) :
  (forall c, P c -> P' c) -> (forall t, T t -> T' t) ->
  dispatch_effect h P T ok m -> dispatch_effect h P' T' ok m.
Proof.
  unfold dispatch_effect, effect_at.
  intros HP HT Hm w. destruct (Hm w) as (r & w' & t & Hrun & Hc & Hp & Hlen & Hr).
  exists r, w', t. split; [done|]. split; [done|].
  split; [eapply Forall_impl; eauto|]. split; [done|].
  destruct r as [a|e]; [|done]. destruct (ok a); [|done].
  destruct Hr as (target & n & text & sid & Ht & Hrest).
  exists target, n, text, sid. split; [by apply HT | done].
Qed.

(** The dispatcher followed by the mapping of its result to the reply of
    an entry point. *)
Lemma dispatch_effect_send {A} h (P : Call -> Prop) (T : string -> Prop) ok
    user message platform cfg (k : bool * string -> M A) :
  P (CallGetStreamByUserId user platform) ->
  (forall sid, P (CallTextToStream message sid true true)) ->
  T user ->
  (forall s d, exists a, k (s, d) = ret a /\ ok a = s) ->
  dispatch_effect h P T ok (bind (send_private_message h user message platform cfg) k).
Proof.
  unfold dispatch_effect, effect_at.
  intros HP1 HP2 HT Hk w.
  assert (Hfail : forall d w1 t,
    calls w1 = (calls w ++ t)%list -> Forall P t -> (length (deliveries t) <= 1)%nat ->
    cooldowns w1 = cooldowns w ->
    exists r w' trace,
      k (false, d) w1 = (r, w') /\ calls w' = (calls w ++ trace)%list /\
      Forall P trace /\ (length (deliveries trace) <= 1)%nat /\
      match r with
      | Ok a =>
          if ok a
          then exists target n text sid,
                 T target /\ cooldowns w' = <[target := clock h n]> (cooldowns w) /\
                 deliveries trace = [CallTextToStream text sid true true] /\
                 h_text_to_stream h text sid = Ok true
          else cooldowns w' = cooldowns w
      | Raise _ => cooldowns w' = cooldowns w
      end).
  { intros d w1 t Hc Hp Hlen Hcd. destruct (Hk false d) as (a & Hka & Hoka).
    exists (Ok a), w1, t. rewrite Hka, Hoka. by repeat split. }
  destruct cfg as [c|]; run_monad.
  - destruct (Qle_bool _ _); cbn.
    + destruct (h_get_stream_by_user_id h user platform) as [[cs|]|e]; cbn.
      * destruct (h_text_to_stream h message (stream_id cs)) as [[|]|e] eqn:Ht; cbn.
        -- destruct (Hk true "私聊消息发送成功") as (a & Hka & Hoka).
           eexists (Ok a), _, [_; _]. rewrite Hka, Hoka. cbn.
           rewrite <- app_assoc. split; [reflexivity|]. split; [reflexivity|].
           split; [by repeat constructor|]. split; [cbn; lia|].
           eexists user, _, message, (stream_id cs). by repeat split.
        -- eapply (Hfail _ _ [_; _]); cbn; rewrite <- ?app_assoc;
             [reflexivity | by repeat constructor | cbn; lia | reflexivity].
        -- eapply (Hfail _ _ [_; _]); cbn; rewrite <- ?app_assoc;
             [reflexivity | by repeat constructor | cbn; lia | reflexivity].
      * eapply (Hfail _ _ [_]); cbn;
          [reflexivity | by repeat constructor | cbn; lia | reflexivity].
      * eapply (Hfail _ _ [_]); cbn;
          [reflexivity | by repeat constructor | cbn; lia | reflexivity].
    + eapply (Hfail _ _ []); cbn; rewrite ?app_nil_r;
        [reflexivity | by constructor | cbn; lia | reflexivity].
  - destruct (h_get_stream_by_user_id h user platform) as [[cs|]|e]; cbn.
    + destruct (h_text_to_stream h message (stream_id cs)) as [[|]|e] eqn:Ht; cbn.
      * destruct (Hk true "私聊消息发送成功") as (a & Hka & Hoka).
        eexists (Ok a), _, [_; _]. rewrite Hka, Hoka. cbn.
        rewrite <- app_assoc. split; [reflexivity|]. split; [reflexivity|].
        split; [by repeat constructor|]. split; [cbn; lia|].
        eexists user, _, message, (stream_id cs). by repeat split.
      * eapply (Hfail _ _ [_; _]); cbn; rewrite <- ?app_assoc;
          [reflexivity | by repeat constructor | cbn; lia | reflexivity].
      * eapply (Hfail _ _ [_; _]); cbn; rewrite <- ?app_assoc;
          [reflexivity | by repeat constructor | cbn; lia | reflexivity].
    + eapply (Hfail _ _ [_]); cbn;
        [reflexivity | by repeat constructor | cbn; lia | reflexivity].
    + eapply (Hfail _ _ [_]); cbn;
        [reflexivity | by repeat constructor | cbn; lia | reflexivity].
Qed.

Lemma lookup_not_name c : is_lookup c = true -> is_name_lookup c = false.
Proof. by destruct c. Qed.

Lemma lookup_not_delivery c : is_lookup c = true -> is_delivery c = false.
Proof. by destruct c. Qed.

Lemma execute_send_effect h self target message_content reason :
  target <> "" ->
  dispatch_effect h (fun c => is_name_lookup c = false) (fun t => t <> "") fst
    (ProactivePrivateChatAction.execute_send h self target message_content reason).
Proof.
  intros Htarget. unfold ProactivePrivateChatAction.execute_send.
  apply (dispatch_effect_bind h (fun c => is_lookup c = true));
    [apply lookup_not_name | apply lookup_not_delivery | |].
  { destruct (get_config _ _ _); [apply quiet_is_user_known | apply quiet_ret]. }
  intros is_known. destruct (negb is_known); [by apply dispatch_effect_ret|].
  apply (dispatch_effect_bind h (fun c => is_lookup c = true));
    [apply lookup_not_name | apply lookup_not_delivery | apply quiet_nickname |].
  intros nickname.
  apply (dispatch_effect_bind h (fun c => is_lookup c = true));
    [apply lookup_not_name | apply lookup_not_delivery | |].
  { destruct (String.eqb _ _);
      [apply quiet_get_greeting_message | apply quiet_replace_nickname]. }
  intros message. apply dispatch_effect_send; try done.
  intros [|] d; eexists; split; reflexivity.
Qed.

Lemma execute_target_effect h self target message_content reason :
  dispatch_effect h (fun c => is_name_lookup c = false) (fun t => t <> "") fst
    (ProactivePrivateChatAction.execute_target h self target message_content reason).
Proof.
  unfold ProactivePrivateChatAction.execute_target.
  destruct (String.eqb target "") eqn:Htarget.
  - destruct (ProactivePrivateChatAction.user_id self) as [u|]; cbn [truthy];
      [|by apply dispatch_effect_ret].
    destruct (negb (String.eqb u "")) eqn:Hu; [|by apply dispatch_effect_ret].
    apply execute_send_effect. cbn. apply String.eqb_neq.
    by apply negb_true_iff in Hu.
  - apply execute_send_effect. by apply String.eqb_neq.
Qed.

(** X6.  A run of the autonomous trigger changes the cooldown state only
    when it returns success, and then by setting the record of one target
    with a non-empty id to a clock reading; a run that returns failure or
    raises leaves the cooldown state as it was.  Every run makes at most
    one delivery, and a successful run exactly one, which reported
    success. *)
Theorem action_execute_effects h self :
  dispatch_effect h (fun _ => True) (fun t => t <> "") fst
    (ProactivePrivateChatAction.execute h self).
Proof.
  unfold ProactivePrivateChatAction.execute.
  destruct (negb (get_config _ _ _)); [by apply dispatch_effect_ret|].
  cbv zeta.
  set (target := default "" (ProactivePrivateChatAction.action_data self !! "target_user_id")).
  destruct (negb (String.eqb target "") && negb (str_isdigit h target)).
  - apply (dispatch_effect_bind h
             (fun c => is_lookup c = true \/ is_name_lookup c = true));
      [done | by intros [] [?|?] | apply quiet_get_user_id_by_name |].
    intros converted. destruct (truthy converted); [|by apply dispatch_effect_ret].
    eapply dispatch_effect_weaken; [| |apply execute_target_effect]; done.
  - eapply dispatch_effect_weaken; [| |apply execute_target_effect]; done.
Qed.

(** X7.  The autonomous trigger looks a name up only for a target that is
    not empty and not purely numeric: with an empty or numeric target no
    run makes a call to the name lookup, so the fallback to the user of
    the current conversation is used as it is, numeric or not. *)
Theorem action_no_name_lookup h self :
  default "" (ProactivePrivateChatAction.action_data self !! "target_user_id") = "" \/
  str_isdigit h (default "" (ProactivePrivateChatAction.action_data self !! "target_user_id"))
    = true ->
  dispatch_effect h (fun c => is_name_lookup c = false) (fun t => t <> "") fst
    (ProactivePrivateChatAction.execute h self).
Proof.
  intros Htarget. unfold ProactivePrivateChatAction.execute.
  destruct (negb (get_config _ _ _)); [by apply dispatch_effect_ret|].
  cbv zeta.
  set (target := default "" (ProactivePrivateChatAction.action_data self !! "target_user_id"))
    in *.
  replace (negb (String.eqb target "") && negb (str_isdigit h target)) with false.
  - apply execute_target_effect.
  - destruct Htarget as [-> | ->]; [done|]. by rewrite andb_false_r.
Qed.

(** The theorem at work: no target is given and the current conversation
    is with a user whose id is not numeric. *)
Lemma action_no_name_lookup_witness :
  effect_at alex_host (fun c => is_name_lookup c = false) (fun t => t <> "") fst
    (ProactivePrivateChatAction.execute alex_host current_user_action) fresh_world.
Proof.
  apply (action_no_name_lookup alex_host current_user_action). by left.
Defined.

(** X8.  A run of the command entry point never looks a name up, makes at
    most one delivery, and changes the cooldown state only when it returns
    success, by setting the record of the matched target id; whenever it
    returns, it signals that no further handler should process the input. *)
Theorem command_execute_effects h self :
  dispatch_effect h (fun c => is_name_lookup c = false)
    (fun t => t = default "" (PrivateChatCommand.matched_groups self !! "target_id")
              /\ t <> "")
    (fun r => fst (fst r))
    (PrivateChatCommand.execute h self) /\
  (forall w flag reply stop,
     fst (PrivateChatCommand.execute h self w) = Ok (flag, reply, stop) -> stop = true).
Proof.
  unfold PrivateChatCommand.execute. cbv zeta.
  set (target := default "" (PrivateChatCommand.matched_groups self !! "target_id")).
  destruct (String.eqb target "") eqn:Htarget.
  { split; [by apply dispatch_effect_ret|]. intros w flag reply stop [= _ _ <-]. done. }
  apply String.eqb_neq in Htarget. split.
  - apply (dispatch_effect_bind h (fun c => is_lookup c = true));
      [apply lookup_not_name | apply lookup_not_delivery | apply quiet_nickname |].
    intros nickname.
    apply (dispatch_effect_bind h (fun c => is_lookup c = true));
      [apply lookup_not_name | apply lookup_not_delivery | |].
    { destruct (truthy _);
        [apply quiet_replace_nickname | apply quiet_get_greeting_message]. }
    intros message. apply dispatch_effect_send; try done.
    intros [|] d; eexists; split; reflexivity.
  - intros w flag reply stop. unfold bind at 1.
    destruct (try_except _ _ w) as [[nickname|e] w1]; [|done].
    unfold bind at 1.
    match goal with |- context [match ?m w1 with _ => _ end] =>
      destruct (m w1) as [[message|e] w2] end; [|done].
    unfold bind at 1.
    destruct (send_private_message h target message DEFAULT_PLATFORM _ w2)
      as [[[[|] result_msg]|e] w3]; unfold ret; cbn; congruence.
Qed.

(** ** The list command under faults *)

Lemma render_streams_calls h streams : forall i w,
  exists r w' k,
    ListPrivateStreamsCommand.render_streams h i streams w = (r, w') /\
    calls w' = (calls w ++ (CallGetStreamInfo <$> take k streams))%list /\
    cooldowns w' = cooldowns w /\ ticks w' = ticks w.
Proof.
  induction streams as [|s streams IH]; intros i w.
  - exists (Ok []), w, 0%nat. cbn. by rewrite app_nil_r.
  - cbn [ListPrivateStreamsCommand.render_streams].
    unfold bind at 1, chat_api_get_stream_info, call_host.
    destruct (h_get_stream_info h s) as [info|e].
    + destruct (IH (S i) (logged (CallGetStreamInfo s) w)) as (r & w' & k & Hrun & Hc & Hcd & Ht).
      unfold bind, ret. rewrite Hrun.
      destruct r as [lines|e]; eexists _, w', (S k); (split; [reflexivity|]);
        rewrite Hc, Hcd, Ht; cbn; by rewrite <- app_assoc.
    + eexists _, _, 1%nat. split; [reflexivity|]. cbn. by rewrite take_0.
Qed.

(** When every description answers, all the streams are described. *)
Lemma render_streams_all h streams : forall i infos w,
  Forall2 (fun s info => h_get_stream_info h s = Ok info) streams infos ->
  exists lines w',
    ListPrivateStreamsCommand.render_streams h i streams w = (Ok lines, w') /\
    calls w' = (calls w ++ (CallGetStreamInfo <$> streams))%list.
Proof.
  induction streams as [|s streams IH]; intros i infos w Hinfos.
  - eexists _, w. split; [reflexivity|]. cbn. by rewrite app_nil_r.
  - inversion Hinfos as [|? info ? infos' Hs Hrest]; subst.
    cbn [ListPrivateStreamsCommand.render_streams].
    unfold bind at 1, chat_api_get_stream_info, call_host. rewrite Hs.
    destruct (IH (S i) infos' (logged (CallGetStreamInfo s) w) Hrest)
      as (lines & w' & Hrun & Hc).
    unfold bind, ret. rewrite Hrun. eexists _, w'. split; [reflexivity|].
    rewrite Hc. cbn. by rewrite <- app_assoc.
Qed.

(** The loop stops at the first description that raises, with its
    exception. *)
Lemma render_streams_first_raise h streams : forall n s e i w,
  streams !! n = Some s ->
  h_get_stream_info h s = Raise e ->
  (forall j s', (j < n)%nat -> streams !! j = Some s' ->
     exists info, h_get_stream_info h s' = Ok info) ->
  exists w',
    ListPrivateStreamsCommand.render_streams h i streams w = (Raise e, w') /\
    calls w' = (calls w ++ (CallGetStreamInfo <$> take (S n) streams))%list.
Proof.
  induction streams as [|s0 streams IH]; intros n s e i w Hn He Hbefore; [done|].
  cbn [ListPrivateStreamsCommand.render_streams].
  unfold bind at 1, chat_api_get_stream_info, call_host.
  destruct n as [|n].
  - injection Hn as ->. rewrite He. eexists. split; [reflexivity|].
    cbn. by rewrite take_0.
  - destruct (Hbefore 0%nat s0 ltac:(lia) eq_refl) as [info ->].
    destruct (IH n s e (S i) (logged (CallGetStreamInfo s0) w) Hn He) as (w' & Hrun & Hc).
    { intros j s' Hj Hs'. apply (Hbefore (S j) s'); [lia | done]. }
    unfold bind. rewrite Hrun. exists w'. split; [reflexivity|].
    rewrite Hc. cbn. by rewrite <- app_assoc.
Qed.

(** X9.  The list command never raises and always signals that no
    further handler should process the input; it reads no clock and leaves
    the cooldown state alone.  It asks once for the private streams of the
    default platform and then describes streams in order, the first 20 at
    most.  When all of these descriptions answer, it describes every one of
    the first 20 streams and reports success; at the first description
    that raises it stops, and the reply is the failure text with that
    exception's message.  When the registry itself raises, the reply is the
    failure text with the exception's message and nothing is described. *)
Theorem list_private_streams_robust h w :
  exists flag text w' trace,
    ListPrivateStreamsCommand.execute h w = (Ok (flag, text, true), w') /\
    calls w' = (calls w ++ CallGetPrivateStreams DEFAULT_PLATFORM :: trace)%list /\
    cooldowns w' = cooldowns w /\ ticks w' = ticks w /\
    (length trace <= 20)%nat /\
    match h_get_private_streams h DEFAULT_PLATFORM with
    | Ok streams =>
        (exists k, (k <= 20)%nat /\ trace = CallGetStreamInfo <$> take k streams) /\
        (forall infos,
           Forall2 (fun s info => h_get_stream_info h s = Ok info)
             (take 20 streams) infos ->
           flag = true /\ trace = CallGetStreamInfo <$> take 20 streams) /\
        (forall n s e,
           (n < 20)%nat -> streams !! n = Some s ->
           h_get_stream_info h s = Raise e ->
           (forall j s', (j < n)%nat -> streams !! j = Some s' ->
              exists info, h_get_stream_info h s' = Ok info) ->
           flag = false /\ text = "获取失败: " +:+ str_exn e /\
           trace = CallGetStreamInfo <$> take (S n) streams)
    | Raise e =>
        trace = [] /\ flag = false /\ text = "获取失败: " +:+ str_exn e
    end.
Proof.
  unfold ListPrivateStreamsCommand.execute, try_except.
  unfold bind at 1, chat_api_get_private_streams, call_host.
  destruct (h_get_private_streams h DEFAULT_PLATFORM) as [streams|e].
  - destruct streams as [|s streams'].
    + eexists _, _, _, []. split; [reflexivity|]. cbn.
      repeat split; try lia; try done. exists 0%nat. split; [lia | done].
    + set (streams := s :: streams').
      set (w0 := logged (CallGetPrivateStreams DEFAULT_PLATFORM) w).
      destruct (render_streams_calls h (take 20 streams) 1 w0)
        as (r & w' & k & Hrun & Hc & Hcd & Ht).
      assert (Hall : forall infos,
        Forall2 (fun s info => h_get_stream_info h s = Ok info)
          (take 20 streams) infos ->
        (exists lines, r = Ok lines) /\
        (CallGetStreamInfo <$> take k (take 20 streams))
        = (CallGetStreamInfo <$> take 20 streams)).
      { intros infos Hinfos.
        destruct (render_streams_all h (take 20 streams) 1 infos w0 Hinfos)
          as (lines & w'' & Hrun' & Hc').
        rewrite Hrun in Hrun'. injection Hrun' as -> <-.
        rewrite Hc in Hc'. apply app_inv_head in Hc'. split; [by eexists | done]. }
      assert (Hfirst : forall n s e,
        (n < 20)%nat -> streams !! n = Some s ->
        h_get_stream_info h s = Raise e ->
        (forall j s', (j < n)%nat -> streams !! j = Some s' ->
           exists info, h_get_stream_info h s' = Ok info) ->
        r = Raise e /\
        (CallGetStreamInfo <$> take k (take 20 streams))
        = (CallGetStreamInfo <$> take (S n) streams)).
      { intros n s0 e Hn Hs He Hbefore.
        destruct (render_streams_first_raise h (take 20 streams) n s0 e 1%nat w0)
          as (w'' & Hrun' & Hc').
        - rewrite lookup_take_lt by lia. exact Hs.
        - exact He.
        - intros j s' Hj Hs'. rewrite lookup_take_lt in Hs' by lia.
          by apply (Hbefore j s').
        - rewrite Hrun in Hrun'. injection Hrun' as -> <-.
          rewrite Hc in Hc'. apply app_inv_head in Hc'. split; [done|].
          rewrite Hc'. rewrite take_take. f_equal. f_equal. lia. }
      subst w0. unfold bind, ret. rewrite Hrun. rewrite take_take in Hc, Hall, Hfirst.
      assert (Hlen : (length (CallGetStreamInfo <$> take (k `min` 20) streams) <= 20)%nat).
      { rewrite length_fmap, length_take. lia. }
      destruct r as [lines|e]; eexists _, _, _, _; (split; [reflexivity|]);
        rewrite Hc, Hcd, Ht; cbn [logged calls cooldowns ticks];
        rewrite <- app_assoc; (split; [reflexivity|]);
        (split; [reflexivity|]); (split; [reflexivity|]); (split; [exact Hlen|]);
        (split; [exists (k `min` 20)%nat; (split; [lia | done])|]).
      * split.
        -- intros infos Hinfos. split; [done|]. by apply (Hall infos).
        -- intros n s0 e Hn Hs He Hbefore.
           by destruct (Hfirst n s0 e Hn Hs He Hbefore).
      * split.
        -- intros infos Hinfos. by destruct (Hall infos Hinfos) as [[lines [=]] _].
        -- intros n s0 e' Hn Hs He Hbefore.
           destruct (Hfirst n s0 e' Hn Hs He Hbefore) as [[= ->] Htr].
           by repeat split.
  - eexists _, _, _, []. split; [reflexivity|]. cbn. repeat split. lia.
Qed.

(** ** The throttle across two sends *)

(** A successful dispatch leaves the target's record at the last clock
    reading. *)
Lemma send_private_message_recorded h user message platform cfg w detail w' :
  send_private_message h user message platform cfg w = (Ok (true, detail), w') ->
  exists n, ticks w' = S n /\ cooldowns w' !! user = Some (clock h n).
Proof.
  destruct cfg as [c|]; run_monad.
  - destruct (Qle_bool _ _); cbn; [|congruence].
    destruct (h_get_stream_by_user_id h user platform) as [[cs|]|e]; cbn;
      [|congruence..].
    destruct (h_text_to_stream h message (stream_id cs)) as [[|]|e]; cbn;
      [|congruence..].
    intros [= _ <-]. cbn. eexists. split; [reflexivity|]. apply lookup_insert_eq.
  - destruct (h_get_stream_by_user_id h user platform) as [[cs|]|e]; cbn;
      [|congruence..].
    destruct (h_text_to_stream h message (stream_id cs)) as [[|]|e]; cbn;
      [|congruence..].
    intros [= _ <-]. cbn. eexists. split; [reflexivity|]. apply lookup_insert_eq.
Qed.

(** X10.  After a successful send to a user, a send to the same user id
    that starts before the window has passed is refused, whatever its
    message and its platform (the throttle is keyed by the user id alone):
    it returns the cooling-down detail with the whole seconds that remain
    at the second reading of the clock, makes no call to the host and
    leaves the cooldown state as it is. *)
Theorem send_again_refused h user message platform cfg0 w detail w1
    cfg message' platform' :
  send_private_message h user message platform cfg0 w = (Ok (true, detail), w1) ->
  (clock h (ticks w1) - clock h (pred (ticks w1))
   < inject_Z (get_config general_cooldown_seconds 300%Z cfg))%Q ->
  exists w2,
    send_private_message h user message' platform' (Some cfg) w1
    = (Ok (false,
           "冷却中，还需等待 "
           +:+ pretty (Z.max 0 (Qfloor
                 (inject_Z (get_config general_cooldown_seconds 300%Z cfg)
                  - (clock h (S (ticks w1)) - clock h (pred (ticks w1))))%Q))
           +:+ " 秒"), w2) /\
    calls w2 = calls w1 /\ cooldowns w2 = cooldowns w1.
Proof.
  intros Hfirst Hsoon.
  apply send_private_message_recorded in Hfirst as (n & Hticks & Hrec).
  rewrite Hticks in *. cbn [pred] in *.
  run_monad. rewrite Hrec, Hticks. cbn [default from_option]. unfold id.
  set (C := get_config general_cooldown_seconds 300%Z cfg) in *.
  assert (Hno : Qle_bool (inject_Z C) (clock h (S n) - clock h n) = false).
  { apply not_true_iff_false. rewrite Qle_bool_iff. by apply Qlt_not_le. }
  rewrite Hno. cbn. rewrite Hrec, Hticks. cbn [default from_option]. unfold id.
  rewrite max0_int_of_float.
  eexists. split; [reflexivity|]. by split.
Qed.

(** The theorem at work: user 42 is sent to twice in the same second, the
    second time on another platform. *)
Lemma send_again_refused_witness :
  exists w2,
    send_private_message alex_host "42" "again" "wechat" (Some default_config) alex_greeted
    = (Ok (false,
           "冷却中，还需等待 "
           +:+ pretty (Z.max 0 (Qfloor
                 (inject_Z (get_config general_cooldown_seconds 300%Z default_config)
                  - (clock alex_host (S (ticks alex_greeted))
                     - clock alex_host (pred (ticks alex_greeted))))%Q))
           +:+ " 秒"), w2) /\
    calls w2 = calls alex_greeted /\
    cooldowns w2 = cooldowns alex_greeted.
Proof.
  apply (send_again_refused alex_host "42" "hi" "qq" None fresh_world
           "私聊消息发送成功" alex_greeted default_config "again" "wechat");
    [reflexivity | vm_compute; reflexivity].
Defined.

(** ** The message body given by the caller *)

Lemma lookup_delivers_custom custom c : is_lookup c = true -> delivers_custom custom c.
Proof. intros Hc text sid a b ->. discriminate Hc. Qed.

Lemma name_lookup_delivers_custom custom c :
  is_lookup c = true \/ is_name_lookup c = true -> delivers_custom custom c.
Proof. intros [Hc|Hc] text sid a b ->; discriminate Hc. Qed.

Lemma replaced_delivers_custom custom nick sid :
  delivers_custom custom
    (CallTextToStream (str_replace custom "{nickname}" nick) sid true true).
Proof.
  intros text sid' a b [= <- _ _ _]. split; [by exists nick|].
  intros Hfree. by apply replace_scan_absent.
Qed.

Lemma dispatch_effect_bind_ret {A B} h P T ok (a : A) (k : A -> M B) :
  dispatch_effect h P T ok (k a) -> dispatch_effect h P T ok (bind (ret a) k).
Proof. intros H w. exact (H w). Qed.

Lemma dispatch_effect_bind_raise {A B} h P T ok e (k : A -> M B) :
  dispatch_effect h P T ok (bind (raise e) k).
Proof. intros w. exact (dispatch_effect_raise h P T ok e w). Qed.

(** X11.  When the command carries a message body, the only text it ever
    hands to the transport is that body with [{nickname}] replaced by a
    nickname, and so the body itself, unchanged, when it holds no token;
    no greeting template is used. *)
Theorem command_custom_message h self custom :
  PrivateChatCommand.matched_groups self !! "message" = Some custom ->
  custom <> "" ->
  dispatch_effect h (delivers_custom custom) (fun _ => True)
    (fun r => fst (fst r)) (PrivateChatCommand.execute h self).
Proof.
  intros Hmsg Hne. unfold PrivateChatCommand.execute. cbv zeta.
  destruct (String.eqb _ "") eqn:Htarget; [by apply dispatch_effect_ret|].
  apply (dispatch_effect_bind h (fun c => is_lookup c = true));
    [apply lookup_delivers_custom | apply lookup_not_delivery | apply quiet_nickname |].
  intros nickname. rewrite Hmsg. cbn [truthy default from_option].
  apply String.eqb_neq in Hne. rewrite Hne. cbn [negb]. unfold id.
  destruct nickname as [nick|]; cbn [replace_nickname];
    [apply dispatch_effect_bind_ret | apply dispatch_effect_bind_raise].
  apply dispatch_effect_send;
    [by apply lookup_delivers_custom | intros sid; apply replaced_delivers_custom
     | done | intros [|] d; eexists; split; reflexivity].
Qed.

(** The theorem at work on the command that asks to tell user 42 the body
    with a token. *)
Lemma command_custom_message_witness :
  effect_at alex_host (delivers_custom "{nickname}, checking in") (fun _ => True)
    (fun r => fst (fst r))
    (PrivateChatCommand.execute alex_host
       (command_on {[ "target_id" := "42"; "message" := "{nickname}, checking in" ]}
          default_config))
    fresh_world.
Proof.
  apply (command_custom_message alex_host
           (command_on {[ "target_id" := "42"; "message" := "{nickname}, checking in" ]}
              default_config)
           "{nickname}, checking in");
    [reflexivity | discriminate].
Defined.

Lemma execute_send_custom h self target message_content reason :
  message_content <> "" ->
  dispatch_effect h (delivers_custom message_content) (fun _ => True) fst
    (ProactivePrivateChatAction.execute_send h self target message_content reason).
Proof.
  intros Hne. unfold ProactivePrivateChatAction.execute_send.
  apply (dispatch_effect_bind h (fun c => is_lookup c = true));
    [apply lookup_delivers_custom | apply lookup_not_delivery | |].
  { destruct (get_config _ _ _); [apply quiet_is_user_known | apply quiet_ret]. }
  intros is_known. destruct (negb is_known); [by apply dispatch_effect_ret|].
  apply (dispatch_effect_bind h (fun c => is_lookup c = true));
    [apply lookup_delivers_custom | apply lookup_not_delivery | apply quiet_nickname |].
  intros nickname. apply String.eqb_neq in Hne. rewrite Hne.
  destruct nickname as [nick|]; cbn [replace_nickname];
    [apply dispatch_effect_bind_ret | apply dispatch_effect_bind_raise].
  apply dispatch_effect_send;
    [by apply lookup_delivers_custom | intros sid; apply replaced_delivers_custom
     | done | intros [|] d; eexists; split; reflexivity].
Qed.

(** X12.  When the policy engine gives a message body, the only text the
    autonomous trigger ever hands to the transport is that body with
    [{nickname}] replaced by a nickname, and so the body itself when it
    holds no token, whichever way the target was found. *)
Theorem action_custom_message h self message_content :
  ProactivePrivateChatAction.action_data self !! "message_content" = Some message_content ->
  message_content <> "" ->
  dispatch_effect h (delivers_custom message_content) (fun _ => True) fst
    (ProactivePrivateChatAction.execute h self).
Proof.
  intros Hmsg Hne.
  assert (Htarget : forall target reason,
    dispatch_effect h (delivers_custom message_content) (fun _ => True) fst
      (ProactivePrivateChatAction.execute_target h self target message_content reason)).
  { intros target reason. unfold ProactivePrivateChatAction.execute_target.
    destruct (String.eqb target ""); [|by apply execute_send_custom].
    destruct (truthy _); [by apply execute_send_custom | by apply dispatch_effect_ret]. }
  unfold ProactivePrivateChatAction.execute.
  destruct (negb (get_config _ _ _)); [by apply dispatch_effect_ret|].
  cbv zeta. rewrite Hmsg. cbn [default from_option]. unfold id.
  destruct (_ && _); [|apply Htarget].
  apply (dispatch_effect_bind h
           (fun c => is_lookup c = true \/ is_name_lookup c = true));
    [apply name_lookup_delivers_custom | by intros [] [?|?]
     | apply quiet_get_user_id_by_name |].
  intros converted. destruct (truthy converted); [apply Htarget|by apply dispatch_effect_ret].
Qed.

(** The theorem at work: the policy engine asks to tell user 42 a body
    without a token. *)
Lemma action_custom_message_witness :
  effect_at alex_host (delivers_custom "thinking of you") (fun _ => True) fst
    (ProactivePrivateChatAction.execute alex_host told_action) fresh_world.
Proof.
  apply (action_custom_message alex_host told_action "thinking of you");
    [reflexivity | discriminate].
Defined.

(** ** The known-user switch *)

Lemma trace_blind_ret {A} (a : A) : trace_blind (ret a).
Proof. by intros w1 w2 H. Qed.

Lemma trace_blind_raise {A} e : trace_blind (@raise A e).
Proof. by intros w1 w2 H. Qed.

Lemma trace_blind_call_host {A} c (answer : result A) : trace_blind (call_host c answer).
Proof. by intros w1 w2 [H1 H2]. Qed.

Lemma trace_blind_bind {A B} (m : M A) (k : A -> M B) :
  trace_blind m -> (forall a, trace_blind (k a)) -> trace_blind (bind m k).
Proof.
  intros Hm Hk w1 w2 H. unfold bind. destruct (Hm w1 w2 H) as [Hr Hs].
  destruct (m w1) as [[a|e] u1], (m w2) as [[a'|e'] u2]; cbn in *; try congruence.
  - injection Hr as <-. by apply Hk.
  - split; [congruence | done].
Qed.

Lemma trace_blind_try_except {A} (m : M A) handler :
  trace_blind m -> (forall e, trace_blind (handler e)) -> trace_blind (try_except m handler).
Proof.
  intros Hm Hk w1 w2 H. unfold try_except. destruct (Hm w1 w2 H) as [Hr Hs].
  destruct (m w1) as [[a|e] u1], (m w2) as [[a'|e'] u2]; cbn in *; try congruence.
  - split; [congruence | done].
  - injection Hr as <-. by apply Hk.
Qed.

Lemma trace_blind_time_time h : trace_blind (time_time h).
Proof. intros w1 w2 [H1 H2]. unfold time_time, tick, same_state. cbn. by rewrite H1, H2. Qed.

Lemma trace_blind_get_cooldowns : trace_blind get_cooldowns.
Proof. intros w1 w2 [H1 H2]. unfold get_cooldowns. cbn. by rewrite H1. Qed.

Lemma trace_blind_set_cooldown u t : trace_blind (set_cooldown u t).
Proof. intros w1 w2 [H1 H2]. unfold set_cooldown, same_state. cbn. by rewrite H1, H2. Qed.

Lemma trace_blind_send h user message platform cfg :
  trace_blind (send_private_message h user message platform cfg).
Proof.
  unfold send_private_message.
  apply trace_blind_try_except; [|intros; apply trace_blind_ret].
  apply trace_blind_bind.
  - destruct cfg as [c|]; [|apply trace_blind_ret].
    apply trace_blind_bind.
    + unfold PrivateChatCooldown.can_send.
      apply trace_blind_bind; [apply trace_blind_get_cooldowns|]. intros cd.
      apply trace_blind_bind; [apply trace_blind_time_time|]. intros. apply trace_blind_ret.
    + intros ok. destruct (negb ok); [|apply trace_blind_ret].
      apply trace_blind_bind; [|intros; apply trace_blind_ret].
      unfold PrivateChatCooldown.get_remaining_time.
      apply trace_blind_bind; [apply trace_blind_get_cooldowns|]. intros cd.
      apply trace_blind_bind; [apply trace_blind_time_time|]. intros. apply trace_blind_ret.
  - intros [detail|]; [apply trace_blind_ret|].
    apply trace_blind_bind; [apply trace_blind_call_host|].
    intros [cs|]; [|apply trace_blind_ret].
    apply trace_blind_bind; [apply trace_blind_call_host|].
    intros [|]; [|apply trace_blind_ret].
    apply trace_blind_bind; [|intros; apply trace_blind_ret].
    unfold PrivateChatCooldown.record_send.
    apply trace_blind_bind; [apply trace_blind_time_time|]. intros.
    apply trace_blind_set_cooldown.
Qed.

Lemma trace_blind_py_int h s : trace_blind (py_int h s).
Proof.
  unfold py_int. destruct (int_of_str h s); [apply trace_blind_ret | apply trace_blind_raise].
Qed.

Lemma trace_blind_replace_nickname template nickname :
  trace_blind (replace_nickname template nickname).
Proof. destruct nickname; [apply trace_blind_ret | apply trace_blind_raise]. Qed.

Lemma trace_blind_get_greeting_message h cfg nickname :
  trace_blind (get_greeting_message h cfg nickname).
Proof.
  unfold get_greeting_message. apply trace_blind_bind.
  - destruct (_ && _); [|apply trace_blind_ret].
    unfold random_choice. destruct (_ !! _); [apply trace_blind_ret | apply trace_blind_raise].
  - intros. apply trace_blind_replace_nickname.
Qed.

(** Lines 262-289 of the trigger: what follows the known-user gate. *)
Lemma execute_send_split h self target message_content reason :
  exists rest : M (bool * string),
    trace_blind rest /\
    (forall w d w', rest w = (Ok (true, d), w') ->
       stream_exists h (ProactivePrivateChatAction.platform self) target) /\
    forall b,
      ProactivePrivateChatAction.execute_send h (action_with self b)
        target message_content reason
      = (is_known <-
           (if b then is_user_known h (ProactivePrivateChatAction.platform self) target
            else ret true) ;;
         if negb is_known then ret (false, "该用户不是已知用户，跳过私聊") else rest).
Proof.
  eexists. split; [|split; [|intros b; destruct b; reflexivity]].
  - apply trace_blind_bind.
    + apply trace_blind_try_except; [|intros; apply trace_blind_ret].
      apply trace_blind_bind; [apply trace_blind_py_int|]. intros n.
      apply trace_blind_bind; [apply trace_blind_call_host|]. intros.
      apply trace_blind_call_host.
    + intros nickname. apply trace_blind_bind.
      * destruct (String.eqb _ _);
          [apply trace_blind_get_greeting_message | apply trace_blind_replace_nickname].
      * intros message. apply trace_blind_bind; [apply trace_blind_send|].
        intros [[|] result_msg]; apply trace_blind_ret.
  - intros w d w'. unfold bind at 1.
    destruct (try_except _ _ w) as [[nickname|e] w1]; [|done].
    unfold bind at 1.
    match goal with |- context [match ?m w1 with _ => _ end] =>
      destruct (m w1) as [[message|e] w2] end; [|done].
    unfold bind at 1.
    match goal with |- context [match ?m w2 with _ => _ end] =>
      destruct (m w2) as [[[[|] result_msg]|e] w3] eqn:Hsend end;
      unfold ret; try congruence.
    intros _. apply send_private_message_success in Hsend.
    destruct Hsend as (cs & Hcs & _). by exists cs.
Qed.

Lemma execute_send_only_known h self target message_content reason w d :
  (fst (ProactivePrivateChatAction.execute_send h (action_with self false)
          target message_content reason w) = Ok (true, d) <->
   fst (ProactivePrivateChatAction.execute_send h (action_with self true)
          target message_content reason w) = Ok (true, d)) /\
  (fst (ProactivePrivateChatAction.execute_send h (action_with self false)
          target message_content reason w) = Ok (true, d) ->
   cooldowns (snd (ProactivePrivateChatAction.execute_send h (action_with self false)
                     target message_content reason w))
   = cooldowns (snd (ProactivePrivateChatAction.execute_send h (action_with self true)
                       target message_content reason w))).
Proof.
  destruct (execute_send_split h self target message_content reason)
    as (rest & Hblind & Hstream & Hsplit).
  rewrite !Hsplit. unfold bind, ret. cbn [negb].
  destruct (is_user_known_run h (ProactivePrivateChatAction.platform self) target w)
    as (b & w1 & Hrun & Hcd & Hb).
  destruct (quiet_is_user_known h (ProactivePrivateChatAction.platform self) target w)
    as (t & _ & _ & _ & Hticks).
  rewrite Hrun in *. cbn [snd] in Hticks.
  assert (Hsame : same_state w w1) by (by split).
  destruct (Hblind w w1 Hsame) as [Hres [Hcd' _]].
  assert (Hknown : fst (rest w) = Ok (true, d) -> b = true).
  { intros Hok. destruct (rest w) as [r w'] eqn:Hrest. cbn in Hok. subst r.
    apply Hb. right. by eapply Hstream. }
  destruct b; cbn [negb].
  - rewrite <- Hres. by split.
  - split; [split|]; intros Hok; [by apply Hknown in Hok | done | by apply Hknown in Hok].
Qed.

(** X13.  [smart_chat.only_known_users] never changes whether the
    autonomous trigger delivers: a run succeeds with the switch off iff it
    succeeds, with the same reply, with the switch on, and both leave the
    same cooldown state.  (A successful send needs an existing private
    stream, and a user with a stream is known.) *)
Theorem only_known_users_no_effect_on_success h self w d :
  (fst (ProactivePrivateChatAction.execute h (action_with self false) w) = Ok (true, d) <->
   fst (ProactivePrivateChatAction.execute h (action_with self true) w) = Ok (true, d)) /\
  (fst (ProactivePrivateChatAction.execute h (action_with self false) w) = Ok (true, d) ->
   cooldowns (snd (ProactivePrivateChatAction.execute h (action_with self false) w))
   = cooldowns (snd (ProactivePrivateChatAction.execute h (action_with self true) w))).
Proof.
  assert (Htarget : forall target message_content reason w1,
    (fst (ProactivePrivateChatAction.execute_target h (action_with self false)
            target message_content reason w1) = Ok (true, d) <->
     fst (ProactivePrivateChatAction.execute_target h (action_with self true)
            target message_content reason w1) = Ok (true, d)) /\
    (fst (ProactivePrivateChatAction.execute_target h (action_with self false)
            target message_content reason w1) = Ok (true, d) ->
     cooldowns (snd (ProactivePrivateChatAction.execute_target h (action_with self false)
                       target message_content reason w1))
     = cooldowns (snd (ProactivePrivateChatAction.execute_target h (action_with self true)
                         target message_content reason w1)))).
  { intros target message_content reason w1.
    unfold ProactivePrivateChatAction.execute_target.
    cbn [action_with ProactivePrivateChatAction.user_id].
    destruct (String.eqb target ""); [|apply execute_send_only_known].
    destruct (truthy _); [apply execute_send_only_known | done]. }
  unfold ProactivePrivateChatAction.execute.
  cbn [action_with ProactivePrivateChatAction.config ProactivePrivateChatAction.action_data
       ProactivePrivateChatAction.platform].
  unfold get_config. cbn [with_switches general_enabled].
  destruct (negb (default true _)); [done|].
  cbv zeta. destruct (_ && _); [|apply Htarget].
  unfold bind.
  destruct (get_user_id_by_name h _ _ w) as [[converted|e] w1]; [|done].
  destruct (truthy converted); [apply Htarget | done].
Qed.

(** ** The refusal of an unknown user *)

(** X16.  With the feature enabled and [smart_chat.only_known_users] on, a
    numeric target that has neither a profile entry nor a private stream
    is refused with the fixed not-a-known-user reply: the run makes only
    the lookups of the classification (no nickname read under a profile,
    no delivery) and leaves the cooldown state as it is. *)
Theorem action_unknown_user_refused h self w target :
  get_config general_enabled true (ProactivePrivateChatAction.config self) = true ->
  get_config smart_chat_only_known_users true (ProactivePrivateChatAction.config self)
    = true ->
  ProactivePrivateChatAction.action_data self !! "target_user_id" = Some target ->
  str_isdigit h target = true ->
  ~ profile_entry h (ProactivePrivateChatAction.platform self) target ->
  ~ stream_exists h (ProactivePrivateChatAction.platform self) target ->
  exists w' trace,
    ProactivePrivateChatAction.execute h self w
      = (Ok (false, "该用户不是已知用户，跳过私聊"), w') /\
    calls w' = (calls w ++ trace)%list /\
    Forall (fun c => is_lookup c = true) trace /\
    (length trace <= 2)%nat /\
    cooldowns w' = cooldowns w.
Proof.
  intros Hen Hknown Htarget Hdig Hp Hs.
  assert (Hne : String.eqb target "" = false) by (by destruct target).
  unfold ProactivePrivateChatAction.execute. rewrite Hen, Htarget.
  cbn [negb default from_option]. unfold id. cbv zeta.
  rewrite Hne, Hdig. cbn [negb andb].
  unfold ProactivePrivateChatAction.execute_target. rewrite Hne.
  unfold ProactivePrivateChatAction.execute_send. rewrite Hknown. unfold bind at 1.
  destruct (is_user_known_run h (ProactivePrivateChatAction.platform self) target w)
    as (b & w' & Hrun & Hcd & Hb).
  assert (Hcalls : exists trace, calls w' = (calls w ++ trace)%list /\
            Forall (fun c => is_lookup c = true) trace /\ (length trace <= 2)%nat).
  { revert Hrun.
    unfold is_user_known, py_int, try_except, bind, ret, raise,
      person_api_get_person_id, chat_api_get_stream_by_user_id, call_host.
    destruct (int_of_str h target) as [n|]; cbn.
    - destruct (h_get_person_id h _ n) as [pid|e]; cbn.
      + destruct (truthy pid); cbn.
        * intros [= _ <-]. eexists [_]. cbn. split; [reflexivity|].
          split; [by repeat constructor | lia].
        * destruct (h_get_stream_by_user_id h target _) as [[cs|]|e]; cbn;
            intros [= _ <-]; eexists [_; _]; cbn; rewrite <- app_assoc;
            (split; [reflexivity|]); (split; [by repeat constructor | lia]).
      + destruct (h_get_stream_by_user_id h target _) as [[cs|]|e']; cbn;
          intros [= _ <-]; eexists [_; _]; cbn; rewrite <- app_assoc;
          (split; [reflexivity|]); (split; [by repeat constructor | lia]).
    - destruct (h_get_stream_by_user_id h target _) as [[cs|]|e']; cbn;
        intros [= _ <-]; eexists [_]; cbn;
        (split; [reflexivity|]); (split; [by repeat constructor | lia]). }
  rewrite Hrun.
  assert (b = false) as ->.
  { destruct b; [|done]. destruct Hb as [Hb _]. destruct (Hb eq_refl); contradiction. }
  destruct Hcalls as (trace & Hc & Hl & Hlen).
  exists w', trace. by repeat split.
Qed.

(** The theorem at work: user 7 is unknown to the host that knows only
    user 42. *)
Lemma action_unknown_user_refused_witness :
  exists w' trace,
    ProactivePrivateChatAction.execute alex_host (action_to "7" default_config) fresh_world
      = (Ok (false, "该用户不是已知用户，跳过私聊"), w') /\
    calls w' = (calls fresh_world ++ trace)%list /\
    Forall (fun c => is_lookup c = true) trace /\
    (length trace <= 2)%nat /\
    cooldowns w' = cooldowns fresh_world.
Proof.
  apply (action_unknown_user_refused alex_host (action_to "7" default_config)
           fresh_world "7");
    [reflexivity | reflexivity | reflexivity | reflexivity | |].
  - intros (n & pid & Hn & Hp & _). vm_compute in Hn. injection Hn as <-.
    vm_compute in Hp. discriminate Hp.
  - intros (cs & Hcs). vm_compute in Hcs. discriminate Hcs.
Defined.
